(** * SkillSync matching service: a shallow embedding of
      [services/matching-service/server.js] and its verification.

    The development follows the source file top to bottom:
    - [JS]: the fragment of JavaScript values, numbers and string
      functions the service relies on;
    - [MatchingAlgorithm]: the static scoring functions of the class of
      the same name;
    - [Service]: the match collection, the two generation pipelines, the
      broker consumers and the write routes of the HTTP API;
    - [Listing]: the two read routes of the HTTP API;
    - [UserService]: the authentication middleware and the two routes of
      the user service that the matching service calls;
    - [Samples]: concrete documents on which the model is run;
    - [Binary64]: the overall score over the kernel's binary64 floats;
    - [Spec] and [Notions]: the vocabulary in which the properties are
      stated;
    - the properties, grouped by the part of the service they are about.

    Modelling conventions.
    - A JavaScript number is an exact rational, [NaN] or a signed infinity.
      Rounding error of binary64 arithmetic, overflow and the sign of zero
      are not represented: every arithmetic operation is the exact one.
      [Binary64] evaluates the overall score in binary64 on the sample
      sub-scores, where both evaluations agree.
    - An object literal used as a table is looked up as JavaScript does:
      own properties first, then the members of [Object.prototype].
    - Strings are [string]s of 8-bit characters; [toLowerCase] and [trim]
      act on the ASCII range.
    - A field that may be absent from a JSON document has an [option] type;
      [None] is JavaScript's [undefined].
    - Identifiers (ObjectIds) are strings assumed well formed, and the
      datastore is assumed reachable: a write fails only through the
      validators declared in [matchSchema].
    - [await] is sequencing: one handler runs at a time. *)

From Stdlib Require Import ZArith QArith Qround Qabs Qminmax.
From Stdlib Require Import List String Ascii Bool Lia Lqa.
From Stdlib Require Import DecimalString.
From Stdlib Require Import Sorted.
From Corelib Require PrimFloat.
Import ListNotations.

Local Open Scope string_scope.
Local Open Scope list_scope.

(** ** The JavaScript fragment *)

Module JS.

(** *** Numbers *)

Inductive number : Type :=
| NaN
| Inf (negative : bool)
| Num (q : Q).

Definition Qeqb (a b : Q) : bool := Qeq_bool a b.
Definition Qleb (a b : Q) : bool := Qle_bool a b.
Definition Qltb (a b : Q) : bool := negb (Qle_bool b a).

Definition neg (a : number) : number :=
  match a with
  | NaN => NaN
  | Inf s => Inf (negb s)
  | Num q => Num (- q)%Q
  end.

Definition add (a b : number) : number :=
  match a, b with
  | NaN, _ | _, NaN => NaN
  | Inf s, Inf t => if Bool.eqb s t then Inf s else NaN
  | Inf s, Num _ => Inf s
  | Num _, Inf t => Inf t
  | Num x, Num y => Num (x + y)%Q
  end.

Definition sub (a b : number) : number := add a (neg b).

Definition mul (a b : number) : number :=
  match a, b with
  | NaN, _ | _, NaN => NaN
  | Inf s, Inf t => Inf (xorb s t)
  | Inf s, Num y | Num y, Inf s =>
      if Qeqb y 0 then NaN else Inf (xorb s (Qltb y 0))
  | Num x, Num y => Num (x * y)%Q
  end.

Definition div (a b : number) : number :=
  match a, b with
  | NaN, _ | _, NaN => NaN
  | Inf _, Inf _ => NaN
  | Inf s, Num y => Inf (xorb s (Qltb y 0))
  | Num _, Inf _ => Num 0
  | Num x, Num y =>
      if Qeqb y 0
      then (if Qeqb x 0 then NaN else Inf (Qltb x 0))
      else Num (x / y)%Q
  end.

(** [a <= b] on numbers; every comparison with [NaN] is false. *)
Definition le (a b : number) : bool :=
  match a, b with
  | NaN, _ | _, NaN => false
  | Inf true, _ => true
  | _, Inf false => true
  | Inf false, _ => false
  | _, Inf true => false
  | Num x, Num y => Qleb x y
  end.

Definition lt (a b : number) : bool :=
  match a, b with
  | NaN, _ | _, NaN => false
  | _, _ => negb (le b a)
  end.

Definition ge (a b : number) : bool := le b a.
Definition gt (a b : number) : bool := lt b a.

(** [Math.min], [Math.max], [Math.abs], [Math.round]. *)
Definition min (a b : number) : number :=
  match a, b with
  | NaN, _ | _, NaN => NaN
  | _, _ => if le a b then a else b
  end.

Definition max (a b : number) : number :=
  match a, b with
  | NaN, _ | _, NaN => NaN
  | _, _ => if le a b then b else a
  end.

Definition abs (a : number) : number :=
  match a with
  | NaN => NaN
  | Inf _ => Inf false
  | Num q => Num (Qabs q)
  end.

(** [Math.round] rounds to the nearest integer, halves towards plus
    infinity: it is [floor (x + 1/2)]. *)
Definition round_half_up (q : Q) : Z := Qfloor (q + (1 # 2))%Q.

Definition round (a : number) : number :=
  match a with
  | Num q => Num (inject_Z (round_half_up q))
  | _ => a
  end.

Definition of_nat (n : nat) : number := Num (inject_Z (Z.of_nat n)).

(** Equality of numbers up to the representation of the rational. *)
Definition num_eq (a b : number) : Prop :=
  match a, b with
  | NaN, NaN => True
  | Inf s, Inf t => s = t
  | Num x, Num y => (x == y)%Q
  | _, _ => False
  end.

Definition is_NaN (a : number) : bool :=
  match a with NaN => true | _ => false end.

(** *** Values

    The values that reach the scoring code: [undefined], a number, or an
    object. The only objects that can appear where a number is expected are
    the members every object literal inherits from [Object.prototype]
    (see [get]); they are all functions, except [__proto__] which is
    [Object.prototype] itself, so one constructor stands for them. *)

Inductive value : Type :=
| Undefined
| Number (n : number)
| Object.

Definition truthy (v : value) : bool :=
  match v with
  | Undefined => false
  | Number NaN => false
  | Number (Inf _) => true
  | Number (Num q) => negb (Qeqb q 0)
  | Object => true
  end.

(** [a || b] *)
Definition or (a b : value) : value := if truthy a then a else b.

(** ToNumber: [undefined], functions and plain objects convert to [NaN]. *)
Definition to_number (v : value) : number :=
  match v with
  | Number n => n
  | Undefined | Object => NaN
  end.

(** *** Object literals with string keys

    [obj[key]] first looks at the own properties of the literal, then at
    [Object.prototype]. *)

Definition object_prototype_keys : list string :=
  [ "constructor"; "__defineGetter__"; "__defineSetter__"; "hasOwnProperty";
    "__lookupGetter__"; "__lookupSetter__"; "isPrototypeOf";
    "propertyIsEnumerable"; "toString"; "valueOf"; "__proto__";
    "toLocaleString" ].

Definition str_in (s : string) (l : list string) : bool :=
  existsb (String.eqb s) l.

Fixpoint own (obj : list (string * number)) (key : string) : option number :=
  match obj with
  | [] => None
  | (k, v) :: rest => if String.eqb k key then Some v else own rest key
  end.

Definition get (obj : list (string * number)) (key : string) : value :=
  match own obj key with
  | Some v => Number v
  | None => if str_in key object_prototype_keys then Object else Undefined
  end.

(** A key that may be [undefined] is converted to the string "undefined". *)
Definition get_opt (obj : list (string * number)) (key : option string)
  : value :=
  match key with
  | Some k => get obj k
  | None => get obj "undefined"
  end.

(** *** Strings *)

Definition lower_ascii (c : ascii) : ascii :=
  let n := nat_of_ascii c in
  if andb (Nat.leb 65 n) (Nat.leb n 90) then ascii_of_nat (n + 32) else c.

Fixpoint toLowerCase (s : string) : string :=
  match s with
  | EmptyString => EmptyString
  | String c rest => String (lower_ascii c) (toLowerCase rest)
  end.

Definition is_space (c : ascii) : bool :=
  let n := nat_of_ascii c in
  orb (Nat.eqb n 32) (andb (Nat.leb 9 n) (Nat.leb n 13)).

Fixpoint trim_start (s : string) : string :=
  match s with
  | EmptyString => EmptyString
  | String c rest => if is_space c then trim_start rest else s
  end.

Fixpoint rev_string (acc s : string) : string :=
  match s with
  | EmptyString => acc
  | String c rest => rev_string (String c acc) rest
  end.

Definition trim (s : string) : string :=
  rev_string EmptyString
    (trim_start (rev_string EmptyString (trim_start s))).

(** [s.split(sep)] for a one-character separator: never empty. *)
Fixpoint split_aux (sep : ascii) (cur : string) (s : string) : list string :=
  match s with
  | EmptyString => [rev_string EmptyString cur]
  | String c rest =>
      if Ascii.eqb c sep
      then rev_string EmptyString cur :: split_aux sep EmptyString rest
      else split_aux sep (String c cur) rest
  end.

Definition split (sep : ascii) (s : string) : list string :=
  split_aux sep EmptyString s.

(** [s.includes(t)]: [t] occurs in [s] as a substring. *)
Fixpoint str_includes (s t : string) : bool :=
  orb (String.prefix t s)
      (match s with
       | EmptyString => false
       | String _ rest => str_includes rest t
       end).

(** A string is falsy exactly when it is empty; [undefined] is falsy. *)
Definition truthy_str (s : option string) : bool :=
  match s with
  | Some (String _ _) => true
  | _ => false
  end.

(** [`${Math.round(a)}`]: the decimal rendering of a rounded number inside
    a template literal. *)
Definition round_to_string (a : number) : string :=
  match a with
  | NaN => "NaN"
  | Inf false => "Infinity"
  | Inf true => "-Infinity"
  | Num q => NilZero.string_of_int (Z.to_int (round_half_up q))
  end.

End JS.

(** ** The scoring functions: [class MatchingAlgorithm] *)

Module MatchingAlgorithm.
Import JS.

Definition n (z : Z) : number := Num (inject_Z z).

(** [calculateSkillMatch(userSkills, requiredSkills, optionalSkills = [])].
    An array, even an empty one, is truthy: the first test only catches
    absent arguments. *)
Definition calculateSkillMatch
    (userSkills requiredSkills optionalSkills : option (list string))
  : number :=
  match userSkills, requiredSkills with
  | Some userSkills, Some requiredSkills =>
      let optionalSkills :=
        match optionalSkills with Some l => l | None => [] end in
      let userSkillsLower := map toLowerCase userSkills in
      let requiredSkillsLower := map toLowerCase requiredSkills in
      let optionalSkillsLower := map toLowerCase optionalSkills in
      (* Required skills match (weighted 70%) *)
      let requiredMatches :=
        List.length (filter (fun skill => str_in skill userSkillsLower)
                       requiredSkillsLower) in
      let requiredScore :=
        mul (div (of_nat requiredMatches)
                 (of_nat (List.length requiredSkillsLower)))
            (n 70) in
      (* Optional skills match (weighted 30%) *)
      let optionalMatches :=
        List.length (filter (fun skill => str_in skill userSkillsLower)
                       optionalSkillsLower) in
      let optionalScore :=
        if Nat.ltb 0 (List.length optionalSkillsLower)
        then mul (div (of_nat optionalMatches)
                      (of_nat (List.length optionalSkillsLower)))
                 (n 30)
        else n 0 in
      min (n 100) (add requiredScore optionalScore)
  | _, _ => n 0
  end.

Definition experienceMap : list (string * number) :=
  [ ("Entry Level", n 1); ("Mid Level", n 2); ("Senior Level", n 3);
    ("Expert", n 4) ].

Definition difficultyMap : list (string * number) :=
  [ ("Beginner", n 1); ("Intermediate", n 2); ("Advanced", n 3) ].

Definition calculateExperienceMatch
    (userExperience projectDifficulty : option string) : number :=
  let userLevel := or (get_opt experienceMap userExperience) (Number (n 1)) in
  let projectLevel :=
    or (get_opt difficultyMap projectDifficulty) (Number (n 1)) in
  (* Perfect match gets 100, each level difference reduces score *)
  let difference := abs (sub (to_number userLevel) (to_number projectLevel)) in
  max (n 0) (sub (n 100) (mul difference (n 25))).

Definition availabilityMap : list (string * number) :=
  [ ("Full-time", n 100); ("Part-time", n 75); ("Weekends", n 50);
    ("Flexible", n 85) ].

(** The second argument is not used by the source. *)
Definition calculateAvailabilityMatch
    (userAvailability projectDuration : option string) : value :=
  or (get_opt availabilityMap userAvailability) (Number (n 50)).

Definition calculateLocationMatch
    (userLocation projectLocation : option string) : number :=
  match userLocation, projectLocation with
  | Some userLocation, Some projectLocation =>
      if negb (truthy_str (Some userLocation))
         || negb (truthy_str (Some projectLocation))
      then n 50
      else if String.eqb (toLowerCase userLocation)
                         (toLowerCase projectLocation)
      then n 100
      else
        (* Check if same country/region *)
        let userParts :=
          map (fun part => toLowerCase (trim part)) (split "," userLocation) in
        let projectParts :=
          map (fun part => toLowerCase (trim part))
              (split "," projectLocation) in
        let commonParts :=
          filter (fun part => str_in part projectParts) userParts in
        min (n 100)
            (mul (div (of_nat (List.length commonParts))
                      (max (of_nat (List.length userParts))
                           (of_nat (List.length projectParts))))
                 (n 100))
  | _, _ => n 50
  end.

(** [userPreferences] as the scoring code reads it. *)
Record Preferences : Type := {
  projectTypes : option (list string);
  interests : option (list string);
  availability : option string
}.

Definition calculateInterestMatch
    (userPreferences : option Preferences)
    (projectCategory : option string)
    (projectTags : option (list string)) : number :=
  match userPreferences with
  | None => n 50
  | Some userPreferences =>
      match projectTypes userPreferences with
      | None => n 50
      | Some types =>
          let score := n 0 in
          (* Category match *)
          let score :=
            if match projectCategory with
               | Some c => str_in c types
               | None => false
               end
            then add score (n 60) else score in
          (* Tags match *)
          let score :=
            match projectTags, interests userPreferences with
            | Some projectTags, Some userInterests =>
                let matchingTags :=
                  filter (fun tag =>
                            existsb (fun interest =>
                                       str_includes (toLowerCase interest)
                                                    (toLowerCase tag))
                                    userInterests)
                         projectTags in
                add score
                    (mul (div (of_nat (List.length matchingTags))
                              (of_nat (List.length projectTags)))
                         (n 40))
            | _, _ => score
            end in
          min (n 100) score
      end
  end.

(** The [factors] object built by the pipelines: always these five keys,
    in this order. *)
Record Factors : Type := {
  skillMatch : value;
  experienceMatch : value;
  availabilityMatch : value;
  locationMatch : value;
  interestMatch : value
}.

(** [Object.entries(factors)] *)
Definition entries (factors : Factors) : list (string * value) :=
  [ ("skillMatch", skillMatch factors);
    ("experienceMatch", experienceMatch factors);
    ("availabilityMatch", availabilityMatch factors);
    ("locationMatch", locationMatch factors);
    ("interestMatch", interestMatch factors) ].

Definition weights : list (string * number) :=
  [ ("skillMatch", Num 0.4); ("experienceMatch", Num 0.2);
    ("availabilityMatch", Num 0.15); ("locationMatch", Num 0.1);
    ("interestMatch", Num 0.15) ].

Definition calculateOverallMatch (factors : Factors) : number :=
  (* Weighted average of all factors *)
  let totalScore :=
    fold_left
      (fun totalScore (entry : string * value) =>
         let (factor, score) := entry in
         add totalScore
             (mul (to_number (or score (Number (n 0))))
                  (to_number (or (get weights factor) (Number (n 0))))))
      (entries factors) (n 0) in
  round totalScore.

(** [generateMatchReasons(factors, userProfile, project)]; the last two
    arguments are not used by the source. *)
Definition generateMatchReasons (factors : Factors) : list string :=
  let reasons := [] in
  let reasons :=
    if gt (to_number (skillMatch factors)) (n 80)
    then reasons ++
         [ ("Strong skill match - you have "
            ++ round_to_string (to_number (skillMatch factors))
            ++ "% of required skills")%string ]
    else reasons in
  let reasons :=
    if gt (to_number (experienceMatch factors)) (n 75)
    then reasons ++
         [ "Your experience level aligns well with project difficulty" ]
    else reasons in
  let reasons :=
    if gt (to_number (availabilityMatch factors)) (n 80)
    then reasons ++ [ "Your availability matches project requirements" ]
    else reasons in
  let reasons :=
    if gt (to_number (locationMatch factors)) (n 90)
    then reasons ++ [ "You're in the same location as the project" ]
    else reasons in
  let reasons :=
    if gt (to_number (interestMatch factors)) (n 70)
    then reasons ++ [ "This project matches your interests and preferences" ]
    else reasons in
  reasons.

End MatchingAlgorithm.

(** ** The service: collection, pipelines, consumers and routes *)

Module Service.
Import JS MatchingAlgorithm.

Definition ObjectId : Type := string.

(** *** Documents served by the collaborator services *)

Module User.
Record profile_t : Type := {
  skills : option (list string);
  experience : option string;
  location : option string
}.
Record doc : Type := {
  _id : ObjectId;
  profile : option profile_t;
  preferences : option Preferences
}.
End User.

Module Project.
Record collaborator : Type := { userId : option ObjectId }.
Record doc : Type := {
  _id : ObjectId;
  collaborators : option (list collaborator);
  requiredSkills : option (list string);
  optionalSkills : option (list string);
  difficulty : option string;
  estimatedDuration : option string;
  location : option string;
  category : option string;
  tags : option (list string)
}.
End Project.

(** *** [matchSchema] *)

Inductive Status : Type := pending | viewed | interested | applied | rejected.

Definition statuses : list string :=
  [ "pending"; "viewed"; "interested"; "applied"; "rejected" ].

Definition status_of_string (s : string) : option Status :=
  if String.eqb s "pending" then Some pending
  else if String.eqb s "viewed" then Some viewed
  else if String.eqb s "interested" then Some interested
  else if String.eqb s "applied" then Some applied
  else if String.eqb s "rejected" then Some rejected
  else None.

Record Feedback : Type := {
  rating : option Q;
  comment : option string;
  helpful : option bool
}.

Record Match : Type := {
  _id : nat;
  userId : ObjectId;
  projectId : ObjectId;
  matchScore : number;
  matchFactors : Factors;
  matchReasons : list string;
  status : Status;
  feedback : option Feedback;
  createdAt : nat;
  updatedAt : nat
}.

(** A path declared [{ type: Number, min: 0, max: 100 }]: an absent value
    passes, a number passes when it lies in the range, anything else
    ([NaN], a non-number) is refused. *)
Definition valid_percent (v : value) : bool :=
  match v with
  | Undefined => true
  | Number x => le (n 0) x && le x (n 100)
  | Object => false
  end.

(** The validators of [matchSchema] that can fail for a document built by
    the pipelines ([matchScore] is also [required]). *)
Definition validate (m : Match) : bool :=
  le (n 0) (matchScore m) && le (matchScore m) (n 100)
  && valid_percent (skillMatch (matchFactors m))
  && valid_percent (experienceMatch (matchFactors m))
  && valid_percent (availabilityMatch (matchFactors m))
  && valid_percent (locationMatch (matchFactors m))
  && valid_percent (interestMatch (matchFactors m)).

(** *** The state of the process and of what it talks to *)

Record MatchCreated : Type := {
  ev_matchId : nat;
  ev_userId : ObjectId;
  ev_projectId : ObjectId;
  ev_matchScore : number;
  ev_timestamp : nat
}.

Inductive Level : Type := info | error.
(** [channel.ack(msg)] and [channel.nack(msg, allUpTo, requeue)] *)
Inductive Settlement : Type := ack | nack (allUpTo requeue : bool).

Inductive exn : Type :=
| TypeError (message : string)
| SyntaxError
| RequestFailed
| ValidationError.

Record World : Type := {
  matches : list Match;            (* the Match collection, insertion order *)
  channel : bool;                  (* is the module variable [channel] set *)
  published : list MatchCreated;   (* messages sent to [matching_events] *)
  log : list (Level * string);
  counter : list (string * string);  (* increments of matchingRequestsTotal *)
  settled : list Settlement;       (* acknowledgements sent to the broker *)
  nextId : nat;                    (* source of fresh [_id]s *)
  now : nat                        (* the clock read by [Date] *)
}.

Definition with_matches (w : World) (ms : list Match) : World :=
  {| matches := ms; channel := channel w; published := published w;
     log := log w; counter := counter w; settled := settled w;
     nextId := nextId w; now := now w |}.

(** *** Computations: state, and exceptions that keep the state *)

Inductive outcome (A : Type) : Type :=
| Ok (a : A)
| Throw (e : exn).
Arguments Ok {A} a.
Arguments Throw {A} e.

Definition M (A : Type) : Type := World -> outcome A * World.

Definition ret {A} (a : A) : M A := fun w => (Ok a, w).
Definition throw {A} (e : exn) : M A := fun w => (Throw e, w).
Definition bind {A B} (m : M A) (k : A -> M B) : M B :=
  fun w => match m w with
           | (Ok a, w') => k a w'
           | (Throw e, w') => (Throw e, w')
           end.
Definition lift {A} (o : outcome A) : M A := fun w => (o, w).

(** [try { m } catch (error) { h error }] *)
Definition try_catch {A} (m : M A) (h : exn -> M A) : M A :=
  fun w => match m w with
           | (Ok a, w') => (Ok a, w')
           | (Throw e, w') => h e w'
           end.

Declare Scope js_scope.
Delimit Scope js_scope with js.
Notation "x <- m ;; k" := (bind m (fun x => k))
  (at level 61, m at next level, right associativity) : js_scope.
Notation "m ;; k" := (bind m (fun _ => k))
  (at level 61, right associativity) : js_scope.
Local Open Scope js_scope.

(** [for (const x of l) { body x }], where [continue] ends [body x]. *)
Fixpoint for_of {A} (l : list A) (body : A -> M unit) : M unit :=
  match l with
  | [] => ret tt
  | x :: rest => body x ;; for_of rest body
  end.

Definition logger (lvl : Level) (msg : string) : M unit :=
  fun w => (Ok tt,
            {| matches := matches w; channel := channel w;
               published := published w; log := log w ++ [(lvl, msg)];
               counter := counter w; settled := settled w;
               nextId := nextId w; now := now w |}).

(** [matchingRequestsTotal.labels(type, status).inc()] *)
Definition inc (type status : string) : M unit :=
  fun w => (Ok tt,
            {| matches := matches w; channel := channel w;
               published := published w; log := log w;
               counter := counter w ++ [(type, status)]; settled := settled w;
               nextId := nextId w; now := now w |}).

Definition settle (s : Settlement) : M unit :=
  fun w => (Ok tt,
            {| matches := matches w; channel := channel w;
               published := published w; log := log w;
               counter := counter w; settled := settled w ++ [s];
               nextId := nextId w; now := now w |}).

(** [if (channel) { await channel.publish("matching_events",
    "match.created", ...) }] *)
Definition publish (m : Match) : M unit :=
  fun w =>
    if channel w
    then (Ok tt,
          {| matches := matches w; channel := channel w;
             published := published w ++
               [ {| ev_matchId := _id m; ev_userId := userId m;
                    ev_projectId := projectId m;
                    ev_matchScore := matchScore m; ev_timestamp := now w |} ];
             log := log w; counter := counter w; settled := settled w;
             nextId := nextId w; now := now w |})
    else (Ok tt, w).

(** *** The Match model *)

(** The filter [{ userId, projectId }]. *)
Definition same_pair (uid pid : ObjectId) (m : Match) : bool :=
  String.eqb (userId m) uid && String.eqb (projectId m) pid.

(** [Match.findOne({ userId, projectId })] *)
Definition findOne (uid pid : ObjectId) : M (option Match) :=
  fun w => (Ok (find (same_pair uid pid) (matches w)), w).

(** [new Match({ userId, projectId, matchScore, matchFactors,
    matchReasons })]: the remaining paths take their schema defaults. *)
Definition new_Match (uid pid : ObjectId) (score : number) (factors : Factors)
    (reasons : list string) : M Match :=
  fun w =>
    (Ok {| _id := nextId w; userId := uid; projectId := pid;
           matchScore := score; matchFactors := factors;
           matchReasons := reasons; status := pending; feedback := None;
           createdAt := now w; updatedAt := now w |},
     {| matches := matches w; channel := channel w; published := published w;
        log := log w; counter := counter w; settled := settled w;
        nextId := S (nextId w); now := now w |}).

(** [match.save()]: validation, then insertion. *)
Definition save (m : Match) : M unit :=
  fun w =>
    if validate m
    then (Ok tt, with_matches w (matches w ++ [m]))
    else (Throw ValidationError, w).

Fixpoint update_first (f : Match -> Match) (id : nat) (ms : list Match)
  : option Match * list Match :=
  match ms with
  | [] => (None, [])
  | m :: rest =>
      if Nat.eqb (_id m) id then (Some (f m), f m :: rest)
      else let (r, rest') := update_first f id rest in (r, m :: rest')
  end.

(** [Match.findByIdAndUpdate(id, update, { new: true })]: resolves to the
    updated document, or to [null] when there is none. *)
Definition findByIdAndUpdate (id : nat) (update : World -> Match -> Match)
  : M (option Match) :=
  fun w =>
    let (r, ms) := update_first (update w) id (matches w) in
    (Ok r, with_matches w ms).

(** *** The collaborator services

    What the four [axios.get] calls resolve to; [Throw RequestFailed] is a
    rejected request (network error, timeout, non-2xx status). *)
Record Env : Type := {
  (* GET /api/users/:id *)
  getUser : ObjectId -> outcome User.doc;
  (* GET /api/projects?status=active&limit=100, field [projects] *)
  getActiveProjects : outcome (list Project.doc);
  (* GET /api/projects/:id *)
  getProject : ObjectId -> outcome Project.doc;
  (* GET /api/users/by-skills?skills=... *)
  getUsersBySkills : list string -> outcome (list User.doc)
}.

(** *** The generation pipelines *)

(** [project.collaborators.some((collab) =>
      collab.userId.toString() === userId)] *)
Fixpoint some_collaborator (collabs : list Project.collaborator)
    (uid : ObjectId) : outcome bool :=
  match collabs with
  | [] => Ok false
  | collab :: rest =>
      match Project.userId collab with
      | None =>
          Throw (TypeError
                   "Cannot read properties of undefined (reading 'toString')")
      | Some id =>
          if String.eqb id uid then Ok true else some_collaborator rest uid
      end
  end.

Definition is_collaborator (project : Project.doc) (uid : ObjectId)
  : outcome bool :=
  match Project.collaborators project with
  | None =>
      Throw (TypeError "Cannot read properties of undefined (reading 'some')")
  | Some collabs => some_collaborator collabs uid
  end.

(** The object literal [factors = { skillMatch: ..., ... }], the same in
    both pipelines. Reading [user.profile.skills] throws when the user
    document has no [profile]. *)
Definition calculateFactors (user : User.doc) (project : Project.doc)
  : outcome Factors :=
  match User.profile user with
  | None =>
      Throw (TypeError "Cannot read properties of undefined (reading 'skills')")
  | Some profile =>
      Ok {| skillMatch :=
              Number (calculateSkillMatch (User.skills profile)
                        (Project.requiredSkills project)
                        (Project.optionalSkills project));
            experienceMatch :=
              Number (calculateExperienceMatch (User.experience profile)
                        (Project.difficulty project));
            availabilityMatch :=
              calculateAvailabilityMatch
                (match User.preferences user with
                 | Some prefs => availability prefs
                 | None => None
                 end)
                (Project.estimatedDuration project);
            locationMatch :=
              Number (calculateLocationMatch (User.location profile)
                        (Project.location project));
            interestMatch :=
              Number (calculateInterestMatch (User.preferences user)
                        (Project.category project) (Project.tags project)) |}
  end.

(** The part of the loop body the two pipelines share, from the lookup of
    an existing match to the success counter. *)
Definition match_pair (type : string) (uid : ObjectId) (user : User.doc)
    (project : Project.doc) : M unit :=
  (* Check if match already exists *)
  existingMatch <- findOne uid (Project._id project) ;;
  match existingMatch with
  | Some _ => ret tt
  | None =>
      (* Calculate match factors *)
      factors <- lift (calculateFactors user project) ;;
      let matchScore := calculateOverallMatch factors in
      (* Only create matches above threshold *)
      if ge matchScore (n 30)
      then
        let matchReasons := generateMatchReasons factors in
        m <- new_Match uid (Project._id project) matchScore factors
                       matchReasons ;;
        save m ;;
        (* Publish match created event *)
        publish m ;;
        inc type "success"
      else ret tt
  end.

(** The body of the loop of [generateMatchesForUser]. *)
Definition user_candidate (uid : ObjectId) (user : User.doc)
    (project : Project.doc) : M unit :=
  (* Skip if user is already a collaborator *)
  skip <- lift (is_collaborator project uid) ;;
  if (skip : bool) then ret tt
  else match_pair "user" uid user project.

(** The body of the loop of [generateMatchesForProject]. *)
Definition project_candidate (project : Project.doc) (user : User.doc)
  : M unit :=
  match_pair "project" (User._id user) user project.

(** Generate matches for a user *)
Definition generateMatchesForUser (env : Env) (uid : ObjectId) : M unit :=
  try_catch
    ((* Get user profile *)
     user <- lift (getUser env uid) ;;
     (* Get active projects *)
     projects <- lift (getActiveProjects env) ;;
     (* Generate matches *)
     for_of projects (user_candidate uid user) ;;
     logger info ("Generated matches for user: " ++ uid))
    (fun _ =>
       logger error "Error generating matches for user:" ;;
       inc "user" "error").

(** Generate matches for a project *)
Definition generateMatchesForProject (env : Env) (pid : ObjectId) : M unit :=
  try_catch
    ((* Get project details *)
     project <- lift (getProject env pid) ;;
     (* Get users with relevant skills *)
     skillsQuery <-
       match Project.requiredSkills project with
       | Some required => ret required
       | None =>
           throw (TypeError
                    "Cannot read properties of undefined (reading 'join')")
       end ;;
     users <- lift (getUsersBySkills env skillsQuery) ;;
     (* Generate matches *)
     for_of users (project_candidate project) ;;
     logger info ("Generated matches for project: " ++ pid))
    (fun _ =>
       logger error "Error generating matches for project:" ;;
       inc "project" "error").

(** *** Event handlers and broker consumers *)

Module EventData.
Record t : Type := { userId : ObjectId; projectId : ObjectId }.
End EventData.

(** A delivery: [content] is what [JSON.parse(msg.content.toString())]
    evaluates to, [Throw SyntaxError] for a payload that is not JSON. *)
Record Message : Type := {
  content : outcome EventData.t;
  routingKey : string
}.

Definition handleUserEvent (env : Env) (eventData : EventData.t)
    (routingKey : string) : M unit :=
  logger info ("Processing user event: " ++ routingKey) ;;
  if String.eqb routingKey "user.created"
     || String.eqb routingKey "user.updated"
  then (* Trigger matching for the user *)
       generateMatchesForUser env (EventData.userId eventData)
  else ret tt.

Definition handleProjectEvent (env : Env) (eventData : EventData.t)
    (routingKey : string) : M unit :=
  logger info ("Processing project event: " ++ routingKey) ;;
  if String.eqb routingKey "project.created"
  then (* Trigger matching for the project *)
       generateMatchesForProject env (EventData.projectId eventData)
  else ret tt.

(** The callback given to [channel.consume("user_events", ...)] *)
Definition consume_user_events (env : Env) (msg : option Message) : M unit :=
  match msg with
  | None => ret tt
  | Some msg =>
      try_catch
        (eventData <- lift (content msg) ;;
         handleUserEvent env eventData (routingKey msg) ;;
         settle ack)
        (fun _ =>
           logger error "Error processing user event:" ;;
           settle (nack false false))
  end.

(** The callback given to [channel.consume("project_events", ...)] *)
Definition consume_project_events (env : Env) (msg : option Message) : M unit :=
  match msg with
  | None => ret tt
  | Some msg =>
      try_catch
        (eventData <- lift (content msg) ;;
         handleProjectEvent env eventData (routingKey msg) ;;
         settle ack)
        (fun _ =>
           logger error "Error processing project event:" ;;
           settle (nack false false))
  end.

(** *** Routes *)

Inductive Body : Type :=
| error_body (error : string)
| message_body (message : string)
| match_body (message : string) (m : Match).

Record Response : Type := { code : nat; body : Body }.

Definition set_status (st : Status) (w : World) (m : Match) : Match :=
  {| _id := _id m; userId := userId m; projectId := projectId m;
     matchScore := matchScore m; matchFactors := matchFactors m;
     matchReasons := matchReasons m; status := st; feedback := feedback m;
     createdAt := createdAt m; updatedAt := now w |}.

Definition set_feedback (fb : Feedback) (w : World) (m : Match) : Match :=
  {| _id := _id m; userId := userId m; projectId := projectId m;
     matchScore := matchScore m; matchFactors := matchFactors m;
     matchReasons := matchReasons m; status := status m; feedback := Some fb;
     createdAt := createdAt m; updatedAt := now w |}.

(** [PUT /api/matches/:matchId/status]; [status] is [req.body.status].
    The test [[...].includes(status)] is [status_of_string] being defined
    (lemma [status_of_string_includes]). *)
Definition put_status (matchId : nat) (status : option string) : M Response :=
  try_catch
    (match
       match status with Some s => status_of_string s | None => None end
     with
     | None => ret {| code := 400; body := error_body "Invalid status" |}
     | Some st =>
         m <- findByIdAndUpdate matchId (set_status st) ;;
         match m with
         | None => ret {| code := 404; body := error_body "Match not found" |}
         | Some m =>
             ret {| code := 200; body := match_body "Match status updated" m |}
         end
     end)
    (fun _ =>
       logger error "Update match status error:" ;;
       ret {| code := 500; body := error_body "Internal server error" |}).

(** [POST /api/matches/:matchId/feedback]; the three last arguments are
    [req.body.rating], [req.body.comment] and [req.body.helpful]. *)
Definition post_feedback (matchId : nat) (rating : option Q)
    (comment : option string) (helpful : option bool) : M Response :=
  try_catch
    (m <- findByIdAndUpdate matchId
            (set_feedback {| rating := rating; comment := comment;
                             helpful := helpful |}) ;;
     match m with
     | None => ret {| code := 404; body := error_body "Match not found" |}
     | Some m =>
         ret {| code := 200; body := match_body "Feedback submitted" m |}
     end)
    (fun _ =>
       logger error "Submit feedback error:" ;;
       ret {| code := 500; body := error_body "Internal server error" |}).

(** [POST /api/matches/generate] *)
Definition post_generate (env : Env) (userId projectId : option ObjectId)
  : M Response :=
  try_catch
    (match userId, projectId with
     | Some (String c u), _ =>
         generateMatchesForUser env (String c u) ;;
         ret {| code := 200;
                body := message_body "Matching process initiated" |}
     | _, Some (String c p) =>
         generateMatchesForProject env (String c p) ;;
         ret {| code := 200;
                body := message_body "Matching process initiated" |}
     | _, _ =>
         ret {| code := 400;
                body := error_body "userId or projectId required" |}
     end)
    (fun _ =>
       logger error "Manual matching error:" ;;
       ret {| code := 500; body := error_body "Internal server error" |}).

(** The store before any request. *)
Definition initial (connected : bool) : World :=
  {| matches := []; channel := connected; published := []; log := [];
     counter := []; settled := []; nextId := 0; now := 0 |}.

End Service.

(** ** The read routes: [GET /api/matches/user/:userId] and
    [GET /api/matches/project/:projectId]

    The query values [page] and [limit] are taken to be positive
    integers and [minScore] a number, as a client of the routes sends
    them; an absent value takes the default of the destructuring
    ([page = 1, limit = 20, minScore = 30]). *)

Module Listing.
Import JS MatchingAlgorithm Service.
Local Open Scope js_scope.

(** The filters [{ userId, matchScore: { $gte: minScore } }] and
    [{ projectId, matchScore: { $gte: minScore } }]. *)
Definition user_filter (userId : ObjectId) (minScore : Q) (m : Match) : bool :=
  String.eqb (Service.userId m) userId && ge (matchScore m) (Num minScore).

Definition project_filter (projectId : ObjectId) (minScore : Q) (m : Match)
  : bool :=
  String.eqb (Service.projectId m) projectId
  && ge (matchScore m) (Num minScore).

(** The order [{ matchScore: -1, createdAt: -1 }]: [a] may come before
    [b] when its score is higher, or equal with a creation time that is
    not earlier. *)
Definition before (a b : Match) : bool :=
  gt (matchScore a) (matchScore b)
  || (le (matchScore a) (matchScore b) && le (matchScore b) (matchScore a)
      && Nat.leb (createdAt b) (createdAt a)).

Fixpoint insert (m : Match) (sorted : list Match) : list Match :=
  match sorted with
  | [] => [m]
  | x :: rest => if before m x then m :: x :: rest else x :: insert m rest
  end.

(** One of the orders the database may answer with: records that tie on
    both keys keep their insertion order. *)
Definition sort (ms : list Match) : list Match := fold_right insert [] ms.

(** [Match.find(filter).sort(...).limit(limit).skip(skip)]: the server
    sorts, skips, then limits, in whatever order the query was built. *)
Definition Match_find (filter : Match -> bool) (limit skip : nat)
  : M (list Match) :=
  fun w =>
    (Ok (firstn limit (skipn skip (sort (List.filter filter (matches w))))), w).

(** [Match.countDocuments(filter)] *)
Definition countDocuments (filter : Match -> bool) : M nat :=
  fun w => (Ok (List.length (List.filter filter (matches w))), w).

(** [await Promise.all(items.map(async (item) => f item))], the
    callbacks being run in the order of the list. *)
Fixpoint promise_all_map {A B} (f : A -> M B) (items : list A) : M (list B) :=
  match items with
  | [] => ret []
  | item :: rest =>
      b <- f item ;;
      bs <- promise_all_map f rest ;;
      ret (b :: bs)
  end.

Record Pagination : Type := {
  current : positive;
  pages : Z;
  total : nat
}.

(** The answers of the two routes; an item is [match.toObject()], with
    the fetched document under [project] or [user] when the fetch
    succeeded. *)
Inductive Answer (A : Type) : Type :=
| listing (items : list (Match * option A)) (pagination : Pagination)
| failed (code : nat) (error : string).
Arguments listing {A} items pagination.
Arguments failed {A} code error.

(** [Math.ceil(total / limit)] *)
Definition page_count (total : nat) (limit : positive) : Z :=
  Qceiling (inject_Z (Z.of_nat total) / inject_Z (Z.pos limit)).

(** Get matches for user *)
Definition get_user_matches (env : Env) (userId : ObjectId)
    (page limit : option positive) (minScore : option Q)
  : M (Answer Project.doc) :=
  try_catch
    (let page := match page with Some p => p | None => 1%positive end in
     let limit := match limit with Some l => l | None => 20%positive end in
     let minScore := match minScore with Some s => s | None => 30%Q end in
     matches <- Match_find (user_filter userId minScore)
                  (Pos.to_nat limit * 1)
                  ((Pos.to_nat page - 1) * Pos.to_nat limit) ;;
     (* Get project details for each match *)
     matchesWithProjects <-
       promise_all_map
         (fun m =>
            try_catch
              (projectResponse <- lift (getProject env (projectId m)) ;;
               ret (m, Some projectResponse))
              (fun _ =>
                 logger error "Error fetching project for match:" ;;
                 ret (m, None)))
         matches ;;
     total <- countDocuments (user_filter userId minScore) ;;
     ret (listing matchesWithProjects
            {| current := page; pages := page_count total limit;
               total := total |}))
    (fun _ =>
       logger error "Get user matches error:" ;;
       ret (failed 500 "Internal server error")).

(** Get matches for project *)
Definition get_project_matches (env : Env) (projectId : ObjectId)
    (page limit : option positive) (minScore : option Q)
  : M (Answer User.doc) :=
  try_catch
    (let page := match page with Some p => p | None => 1%positive end in
     let limit := match limit with Some l => l | None => 20%positive end in
     let minScore := match minScore with Some s => s | None => 30%Q end in
     matches <- Match_find (project_filter projectId minScore)
                  (Pos.to_nat limit * 1)
                  ((Pos.to_nat page - 1) * Pos.to_nat limit) ;;
     (* Get user details for each match *)
     matchesWithUsers <-
       promise_all_map
         (fun m =>
            try_catch
              (userResponse <- lift (getUser env (userId m)) ;;
               ret (m, Some userResponse))
              (fun _ =>
                 logger error "Error fetching user for match:" ;;
                 ret (m, None)))
         matches ;;
     total <- countDocuments (project_filter projectId minScore) ;;
     ret (listing matchesWithUsers
            {| current := page; pages := page_count total limit;
               total := total |}))
    (fun _ =>
       logger error "Get project matches error:" ;;
       ret (failed 500 "Internal server error")).

End Listing.

(** ** The user service, as the matching service calls it

    [authenticateToken] and the two routes behind the requests
    [GET /api/users/:id] and [GET /api/users/by-skills?skills=...]. The
    verification of a token against the secret and the queries on the
    User collection are given from outside; logging is left out. *)

Module UserService.
Import JS Service.

(** The payload of a verified token. *)
Record Claims : Type := { userId : ObjectId }.

(** What a request is answered with: [res.json(data)], or
    [res.status(code).json({ error })]. *)
Inductive Reply (A : Type) : Type :=
| json (data : A)
| refused (code : nat) (error : string).
Arguments json {A} data.
Arguments refused {A} code error.

(** The queries on the User collection; [Throw] is a rejected query. *)
Record Db : Type := {
  (* User.findById(id).select("-password") *)
  findById : ObjectId -> outcome (option User.doc);
  (* User.find({ "profile.skills": { $in: skillsArray },
                 _id: { $ne: userId }, isActive: true })
         .select("-password").limit(20) *)
  find_by_skills : list string -> ObjectId -> outcome (list User.doc)
}.

(** [array[1]] *)
Definition second (l : list string) : option string := nth_error l 1.

(** Auth middleware; [verify token] is [Some user] when
    [jwt.verify(token, secret, callback)] calls back without error. *)
Definition authenticateToken {A} (verify : string -> option Claims)
    (authHeader : option string) (next : Claims -> Reply A) : Reply A :=
  let token :=
    match authHeader with
    | Some (String c h) => second (split " " (String c h))
    | Some EmptyString => Some EmptyString
    | None => None
    end in
  match token with
  | Some (String c t) =>
      match verify (String c t) with
      | None => refused 403 "Invalid token"
      | Some user => next user
      end
  | _ => refused 401 "Access token required"
  end.

(** Get user by ID *)
Definition get_user_by_id (verify : string -> option Claims) (db : Db)
    (authHeader : option string) (id : ObjectId) : Reply User.doc :=
  authenticateToken verify authHeader
    (fun _ =>
       match findById db id with
       | Ok None => refused 404 "User not found"
       | Ok (Some user) => json user
       | Throw _ => refused 500 "Internal server error"
       end).

(** Get users by skills; [skills] is [req.query.skills]. *)
Definition get_users_by_skills (verify : string -> option Claims) (db : Db)
    (authHeader : option string) (skills : option string)
  : Reply (list User.doc) :=
  authenticateToken verify authHeader
    (fun user =>
       match skills with
       | Some (String c s) =>
           let skillsArray := map trim (split "," (String c s)) in
           match find_by_skills db skillsArray (userId user) with
           | Ok users => json users
           | Throw _ => refused 500 "Internal server error"
           end
       | _ => refused 400 "Skills parameter required"
       end).

(** [await axios.get(url)] on such a route: the response data, or a
    rejection for a status outside 2xx. *)
Definition axios_get {A} (reply : Reply A) : outcome A :=
  match reply with
  | json data => Ok data
  | refused _ _ => Throw RequestFailed
  end.

(** [array.join(separator)] *)
Definition join (separator : string) (l : list string) : string :=
  String.concat separator l.

(** The collaborators of the matching service when its user requests go
    to this service: they are sent by [axios.get(url)] alone, so they
    carry no [Authorization] header. The project service is given from
    outside. *)
Definition deployed (verify : string -> option Claims) (db : Db)
    (activeProjects : outcome (list Project.doc))
    (project : ObjectId -> outcome Project.doc) : Env :=
  {| getUser := fun id => axios_get (get_user_by_id verify db None id);
     getActiveProjects := activeProjects;
     getProject := project;
     getUsersBySkills :=
       fun requiredSkills =>
         axios_get (get_users_by_skills verify db None
                      (Some (join "," requiredSkills))) |}.

End UserService.

(** ** Sample documents

    Concrete users, projects and collaborator answers used to run the
    model. *)

Module Samples.
Import JS MatchingAlgorithm Service.

Definition user (id : ObjectId) (skills : list string) (experience : string)
    (prefs : option Preferences) : User.doc :=
  {| User._id := id;
     User.profile :=
       Some {| User.skills := Some skills;
               User.experience := Some experience;
               User.location := None |};
     User.preferences := prefs |}.

Definition project (id : ObjectId) (required : list string)
    (difficulty : string) : Project.doc :=
  {| Project._id := id;
     Project.collaborators := Some [];
     Project.requiredSkills := Some required;
     Project.optionalSkills := Some [];
     Project.difficulty := Some difficulty;
     Project.estimatedDuration := Some "3 months";
     Project.location := None;
     Project.category := Some "Web Development";
     Project.tags := Some [] |}.

(** A senior Python developer without stated preferences. *)
Definition senior : User.doc := user "u1" ["Python"] "Senior Level" None.

(** An expert available part-time. *)
Definition expert : User.doc :=
  user "u2" ["Go"] "Expert"
       (Some {| projectTypes := None; interests := None;
                availability := Some "Part-time" |}).

(** A user document without [profile]. *)
Definition no_profile : User.doc :=
  {| User._id := "u3"; User.profile := None; User.preferences := None |}.

Definition rust_intro : Project.doc := project "p1" ["rust"] "Beginner".
(** A project that declares an empty list of required skills. *)
Definition open_call : Project.doc := project "p2" [] "Advanced".
Definition python_advanced : Project.doc := project "p3" ["python"] "Advanced".


Definition serving (u : User.doc) (projects : list Project.doc)
    (p : Project.doc) (users : list User.doc) : Env :=
  {| getUser := fun _ => Ok u;
     getActiveProjects := Ok projects;
     getProject := fun _ => Ok p;
     getUsersBySkills := fun _ => Ok users |}.


Definition user_created (uid : ObjectId) : Message :=
  {| content := Ok {| EventData.userId := uid; EventData.projectId := "" |};
     routingKey := "user.created" |}.


(** A stored record with the given status, and a collection holding it. *)
Definition stored (st : Status) : Match :=
  {| _id := 7; userId := "u1"; projectId := "p3";
     matchScore := n 68;
     matchFactors :=
       {| skillMatch := Number (n 70);
          experienceMatch := Number (n 100);
          availabilityMatch := Number (n 50);
          locationMatch := Number (n 50);
          interestMatch := Number (n 50) |};
     matchReasons :=
       ["Your experience level aligns well with project difficulty"];
     status := st; feedback := None;
     createdAt := 3; updatedAt := 3 |}.

Definition one_match (st : Status) : World :=
  {| matches := [stored st];
     channel := true; published := []; log := []; counter := [];
     settled := []; nextId := 8; now := 10 |}.

(** Two projects the senior developer qualifies for. *)
Definition catalogue : Env :=
  serving senior [python_advanced; rust_intro] python_advanced [senior].

(** A batch whose second candidate cannot be saved. *)
Definition batch : Env :=
  serving senior [rust_intro; open_call; python_advanced] rust_intro [].

Definition after_first : World :=
  snd (for_of [rust_intro] (user_candidate "u1" senior) (initial true)).

Definition after_failure : World :=
  snd (user_candidate "u1" senior open_call after_first).

End Samples.

(** ** The overall score in binary64

    The running program computes with IEEE 754 binary64 numbers. This
    module writes the loop of [calculateOverallMatch] over the kernel's
    binary64 floats, operation by operation, so that the totals of the
    sample sub-scores can be compared with the exact ones. *)

Module Binary64.
Import PrimFloat.
Local Open Scope float_scope.

Definition is_nan (x : float) : bool := negb (x =? x).

(** [x || 0] on a number *)
Definition or_zero (x : float) : float :=
  if (x =? 0) || is_nan x then 0 else x.

Definition two52 : float := 4503599627370496.

(** [Math.round]: the closest integer, a half going up. Below 2^52 in
    magnitude, adding and subtracting 2^52 gives a closest integer, from
    which the floor and then the rounded value follow exactly. *)
Definition round (x : float) : float :=
  if is_nan x then x
  else if two52 <=? abs x then x
  else
    let r := if 0 <=? x then (x + two52) - two52 else (x - two52) + two52 in
    let floor := if x <? r then r - 1 else r in
    if (x - floor) <? 0.5 then floor else floor + 1.

#[warnings="-inexact-float"]
Definition calculateOverallMatch (s e a l i : float) : float :=
  let totalScore := 0 in
  let totalScore := totalScore + or_zero s * 0.4 in
  let totalScore := totalScore + or_zero e * 0.2 in
  let totalScore := totalScore + or_zero a * 0.15 in
  let totalScore := totalScore + or_zero l * 0.1 in
  let totalScore := totalScore + or_zero i * 0.15 in
  round totalScore.

(** [Math.min] *)
Definition min (a b : float) : float :=
  if is_nan a then a else if is_nan b then b
  else if a <=? b then a else b.

(** The value of [calculateSkillMatch] when no skill is required and none
    is optional: [Math.min(100, (0 / 0) * 70 + 0)]. *)
Definition empty_required : float := min 100 (0 / 0 * 70 + 0).

(** The overall scores of the sample sub-scores, and the integers the
    exact evaluation gives for them. *)
Definition sample_scores : list float :=
  [ calculateOverallMatch 0 50 50 50 50;
    calculateOverallMatch 0 25 75 50 50;
    calculateOverallMatch 0 75 50 50 50;
    calculateOverallMatch 70 100 50 50 50;
    calculateOverallMatch nan 100 50 50 50 ].

Definition sample_integers : list float := [30; 29; 35; 68; 40].

End Binary64.

(** * Vocabulary of the properties *)

Module Spec.
Import JS MatchingAlgorithm Service.

(** ** Scores *)

(** A sub-score that is a number in [0,100]. *)
Definition percent (q : Q) : Prop := (0 <= q /\ q <= 100)%Q.

(** The [factors] object whose five sub-scores are the given numbers. *)
Definition numeric_factors (s e a l i : Q) : Factors :=
  {| skillMatch := Number (Num s); experienceMatch := Number (Num e);
     availabilityMatch := Number (Num a); locationMatch := Number (Num l);
     interestMatch := Number (Num i) |}.

(** The weighted sum of the specification. *)
Definition weighted_sum (s e a l i : Q) : Q :=
  (0.4 * s + 0.2 * e + 0.15 * a + 0.1 * l + 0.15 * i)%Q.

(** The levels the two tables are meant to define: an unrecognized or
    missing string is at the lowest level. *)
Definition experience_level (userExperience : option string) : Z :=
  match userExperience with
  | Some s =>
      if String.eqb "Entry Level" s then 1
      else if String.eqb "Mid Level" s then 2
      else if String.eqb "Senior Level" s then 3
      else if String.eqb "Expert" s then 4
      else 1
  | None => 1
  end.

Definition difficulty_level (projectDifficulty : option string) : Z :=
  match projectDifficulty with
  | Some s =>
      if String.eqb "Beginner" s then 1
      else if String.eqb "Intermediate" s then 2
      else if String.eqb "Advanced" s then 3
      else 1
  | None => 1
  end.

(** A key that is not the name of a member of [Object.prototype]. *)
Definition plain_key (key : option string) : bool :=
  match key with
  | Some s => negb (str_in s object_prototype_keys)
  | None => true
  end.

(** ** The collection *)

Definition pair_key (m : Match) : ObjectId * ObjectId :=
  (userId m, projectId m).

(** At most one record per (user, project) pair. *)
Definition unique_pairs (ms : list Match) : Prop :=
  NoDup (map pair_key ms).

(** The number of records of a pair. *)
Definition count_pair (uid pid : ObjectId) (ms : list Match) : nat :=
  List.length (filter (same_pair uid pid) ms).

Definition persisted (uid pid : ObjectId) (w : World) : bool :=
  existsb (same_pair uid pid) (matches w).

Definition findById (id : nat) (ms : list Match) : option Match :=
  find (fun m => Nat.eqb (_id m) id) ms.

(** The document [new Match(...)] builds in world [w]. *)
Definition document (w : World) (uid pid : ObjectId) (factors : Factors)
  : Match :=
  {| _id := nextId w; userId := uid; projectId := pid;
     matchScore := calculateOverallMatch factors; matchFactors := factors;
     matchReasons := generateMatchReasons factors; status := pending;
     feedback := None; createdAt := now w; updatedAt := now w |}.

(** The world after [new Match(...)]: one identifier has been used. *)
Definition fresh_id (w : World) : World :=
  {| matches := matches w; channel := channel w; published := published w;
     log := log w; counter := counter w; settled := settled w;
     nextId := S (nextId w); now := now w |}.

(** The world after the creation of [m]: the document is appended, the
    event is published when the channel is there, one success is counted. *)
Definition created (type : string) (w : World) (m : Match) : World :=
  {| matches := matches w ++ [m];
     channel := channel w;
     published :=
       if channel w
       then published w ++
              [ {| ev_matchId := _id m; ev_userId := userId m;
                   ev_projectId := projectId m;
                   ev_matchScore := matchScore m; ev_timestamp := now w |} ]
       else published w;
     log := log w;
     counter := counter w ++ [(type, "success")];
     settled := settled w;
     nextId := S (nextId w);
     now := now w |}.

(** [I] is a property of the collection that [m] cannot break. *)
Definition preserves {A} (I : list Match -> Prop) (m : M A) : Prop :=
  forall w, I (matches w) -> I (matches (snd (m w))).

(** ** Requests

    Everything that can reach the service: a delivery on one of the two
    queues, or a call of one of the three write routes. *)
Inductive Request : Type :=
| user_delivery (env : Env) (msg : option Message)
| project_delivery (env : Env) (msg : option Message)
| generate_call (env : Env) (userId projectId : option ObjectId)
| status_call (matchId : nat) (status : option string)
| feedback_call (matchId : nat) (rating : option Q) (comment : option string)
                (helpful : option bool).

Definition serve (r : Request) (w : World) : World :=
  match r with
  | user_delivery env msg => snd (consume_user_events env msg w)
  | project_delivery env msg => snd (consume_project_events env msg w)
  | generate_call env uid pid => snd (post_generate env uid pid w)
  | status_call id st => snd (put_status id st w)
  | feedback_call id r c h => snd (post_feedback id r c h w)
  end.

(** Requests served one after the other. *)
Definition run (rs : list Request) (w : World) : World :=
  fold_left (fun w r => serve r w) rs w.

(** ** Status transitions *)

(** The transitions the specification allows: the forward path, and
    rejection from any state that is not already [rejected]. *)
Definition allowed_transition (from to : Status) : bool :=
  match from, to with
  | pending, viewed | viewed, interested | interested, applied => true
  | rejected, rejected => false
  | _, rejected => true
  | _, _ => false
  end.

(** ** Collaborator failures *)

(** The user, or the list of active projects, cannot be fetched. *)
Definition user_fetch_fails (env : Env) (uid : ObjectId) (e : exn) : Prop :=
  getUser env uid = Throw e
  \/ ((exists user, getUser env uid = Ok user)
      /\ getActiveProjects env = Throw e).


End Spec.

(** ** Further vocabulary: shares, stored records, evolution of the state *)

Module Notions.
Import JS MatchingAlgorithm Service Spec.

(** *** Sub-scores *)

(** The user holds [skill], up to the case of the letters. *)
Definition held (userSkills : list string) (skill : string) : bool :=
  str_in (toLowerCase skill) (map toLowerCase userSkills).

(** [k] out of [m], as a rational. *)
Definition ratio (k m : nat) : Q :=
  (inject_Z (Z.of_nat k) / inject_Z (Z.of_nat m))%Q.

(** The share of the skills of [l] that the user holds. *)
Definition share (userSkills l : list string) : Q :=
  ratio (List.length (filter (held userSkills) l)) (List.length l).

(** The optional part of the skill score: nothing when no optional skill
    is declared. *)
Definition optional_share (userSkills : list string)
    (optionalSkills : option (list string)) : Q :=
  match optionalSkills with
  | Some (skill :: l) => share userSkills (skill :: l)
  | _ => 0%Q
  end.

(** [user.preferences?.availability] *)
Definition stated_availability (user : User.doc) : option string :=
  match User.preferences user with
  | Some prefs => availability prefs
  | None => None
  end.

(** The components of a location, as the comparison sees them. *)
Definition parts (location : string) : list string :=
  map (fun part => toLowerCase (trim part)) (split "," location).

(** One of the user's interests occurs in [tag], up to case. *)
Definition tag_matches (userInterests : list string) (tag : string) : bool :=
  existsb (fun interest =>
             str_includes (toLowerCase interest) (toLowerCase tag))
          userInterests.

(** The five canned reasons, in the order of the factors; the first one
    quotes the skill score. *)
Definition experience_reason : string :=
  "Your experience level aligns well with project difficulty".
Definition availability_reason : string :=
  "Your availability matches project requirements".
Definition location_reason : string :=
  "You're in the same location as the project".
Definition interest_reason : string :=
  "This project matches your interests and preferences".

(** *** Stored records *)

(** What a record is created with and no request changes afterwards. *)
Definition core (m : Match)
  : nat * ObjectId * ObjectId * number * Factors * list string * nat :=
  (_id m, userId m, projectId m, matchScore m, matchFactors m,
   matchReasons m, createdAt m).

(** What a [match.created] event says of a record. *)
Definition summary (m : Match) : nat * ObjectId * ObjectId * number :=
  (_id m, userId m, projectId m, matchScore m).

Definition announced (ev : MatchCreated) : nat * ObjectId * ObjectId * number :=
  (ev_matchId ev, ev_userId ev, ev_projectId ev, ev_matchScore ev).

(** The number of increments of the counter with the status "success". *)
Definition successes (increments : list (string * string)) : nat :=
  List.length (filter (fun labels => String.eqb (snd labels) "success")
                      increments).

(** A record as the pipelines create it: score and reasons computed from
    the stored factors, score at least 30, validators passed. *)
Definition well_formed (m : Match) : Prop :=
  matchScore m = calculateOverallMatch (matchFactors m)
  /\ matchReasons m = generateMatchReasons (matchFactors m)
  /\ ge (matchScore m) (n 30) = true
  /\ validate m = true.

(** *** Evolution of the state

    [evolves R m]: running [m] takes any state to a state related to it by
    [R], whether [m] returns or throws. *)
Definition evolves {A} (R : World -> World -> Prop) (m : M A) : Prop :=
  forall w, R w (snd (m w)).

(** From [w] to [w']: records have only been appended, the records
    that were there keep their core, and what has been published and
    counted is what has been appended. *)
Definition appended (w w' : World) : Prop :=
  channel w' = channel w
  /\ exists added : list Match,
       map core (matches w') = map core (matches w) ++ map core added
       /\ map announced (published w')
          = map announced (published w)
            ++ (if channel w then map summary added else [])
       /\ successes (counter w')
          = (successes (counter w) + List.length added)%nat.

(** From [w] to [w']: stored records stay well formed. *)
Definition keeps_well_formed (w w' : World) : Prop :=
  Forall well_formed (matches w) -> Forall well_formed (matches w').

(** *** The read routes *)

(** [w] with further log entries. *)
Definition logged (w : World) (entries : list (Level * string)) : World :=
  {| matches := matches w; channel := channel w; published := published w;
     log := log w ++ entries; counter := counter w; settled := settled w;
     nextId := nextId w; now := now w |}.

(** The page of the sorted selection that a listing answers with. *)
Definition page_of (filter : Match -> bool) (page limit : positive)
    (w : World) : list Match :=
  firstn (Pos.to_nat limit)
         (skipn ((Pos.to_nat page - 1) * Pos.to_nat limit)
                (Listing.sort (List.filter filter (matches w)))).

(** A listed record with the document fetched for it, if any. *)
Definition attach {A} (fetch : Match -> outcome A) (m : Match)
  : Match * option A :=
  (m, match fetch m with Ok a => Some a | Throw _ => None end).

Definition fetch_fails {A} (fetch : Match -> outcome A) (m : Match) : bool :=
  match fetch m with Ok _ => false | Throw _ => true end.

(** The answer of a listing route over a selection and a fetch. *)
Definition listed {A} (filter : Match -> bool) (fetch : Match -> outcome A)
    (page limit : positive) (w : World) : Listing.Answer A :=
  Listing.listing
    (map (attach fetch) (page_of filter page limit w))
    {| Listing.current := page;
       Listing.pages :=
         Listing.page_count (List.length (List.filter filter (matches w)))
                            limit;
       Listing.total := List.length (List.filter filter (matches w)) |}.

Definition or_default {A} (given : option A) (default : A) : A :=
  match given with Some a => a | None => default end.

(** [answer], given in state [w] and leaving state [w'], is a page of the
    selection of [filter]: only stored records that pass the filter, at
    most [limit] of them, none beyond the last page, with the total and
    the page count of the whole selection; the state is only read, the
    log apart. *)
Definition page_answer {A} (filter : Match -> bool) (page limit : positive)
    (w : World) (answer : Listing.Answer A) (w' : World) : Prop :=
  exists items pagination,
    answer = Listing.listing items pagination
    /\ Forall (fun m => In m (matches w) /\ filter m = true) (map fst items)
    /\ (List.length items <= Pos.to_nat limit)%nat
    /\ Listing.current pagination = page
    /\ Listing.total pagination
       = List.length (List.filter filter (matches w))
    /\ ((Listing.pages pagination - 1) * Z.pos limit
        < Z.of_nat (Listing.total pagination)
        <= Listing.pages pagination * Z.pos limit)%Z
    /\ ((Listing.pages pagination < Z.pos page)%Z -> items = [])
    /\ (exists entries, w' = logged w entries).

(** [answer] carries, for each listed record, the document [fetch] gives
    for it, or nothing when the fetch fails; [w'] has one more error entry
    per failed fetch. *)
Definition enriched_answer {A} (fetch : Match -> outcome A) (msg : string)
    (w : World) (answer : Listing.Answer A) (w' : World) : Prop :=
  exists items pagination,
    answer = Listing.listing items pagination
    /\ items = map (attach fetch) (map fst items)
    /\ w' = logged w
              (repeat (error, msg)
                 (List.length
                    (List.filter (fetch_fails fetch) (map fst items)))).


(** *** The user service *)

(** The character [c] does not occur in [s]. *)
Fixpoint lacks (c : ascii) (s : string) : bool :=
  match s with
  | EmptyString => true
  | String c' rest => negb (Ascii.eqb c' c) && lacks c rest
  end.


(** The state a generation run is left in by its [catch]. *)
Definition gave_up (type message : string) (w : World) : World :=
  snd (inc type "error" (snd (logger error message w))).

(** The request is served by the collaborators [env]. *)
Definition served_by (env : Env) (r : Request) : Prop :=
  match r with
  | user_delivery env' _ | project_delivery env' _ | generate_call env' _ _ =>
      env' = env
  | status_call _ _ | feedback_call _ _ _ _ => True
  end.

(** *** What a generation run creates *)

(** A record as [new Match] leaves it. *)
Definition brand_new (m : Match) : Prop :=
  status m = pending /\ feedback m = None /\ well_formed m.

(** The projects a run for a user iterates over, and the users a run for
    a project iterates over; none when a fetch fails. *)
Definition listed_projects (env : Env) (uid : ObjectId) : list Project.doc :=
  match getUser env uid, getActiveProjects env with
  | Ok _, Ok projects => projects
  | _, _ => []
  end.

Definition fetched_project (env : Env) (pid : ObjectId) : option Project.doc :=
  match getProject env pid with
  | Ok project => Some project
  | Throw _ => None
  end.

Definition listed_users (env : Env) (pid : ObjectId) : list User.doc :=
  match getProject env pid with
  | Ok project =>
      match Project.requiredSkills project with
      | Some required =>
          match getUsersBySkills env required with
          | Ok users => users
          | Throw _ => []
          end
      | None => []
      end
  | Throw _ => []
  end.

(** The stored fields that are neither the update time nor derived from
    it. *)
Definition record_content (m : Match)
  : (nat * ObjectId * ObjectId * number * Factors * list string * nat)
    * Status * option Feedback :=
  (core m, status m, feedback m).

End Notions.

(** * Properties *)

Import JS MatchingAlgorithm Service Spec.
Local Open Scope js_scope.

(** ** Rounding *)

Section Rounding.


Lemma round_half_up_comp (p q : Q) :
  (p == q)%Q -> round_half_up p = round_half_up q.
Proof.
  intros H. unfold round_half_up. apply Qfloor_comp. now rewrite H.
Qed.

Lemma round_half_up_bounds (q : Q) (lo hi : Z) :
  (inject_Z lo <= q)%Q -> (q <= inject_Z hi)%Q ->
  (lo <= round_half_up q <= hi)%Z.
Proof.
  intros Hlo Hhi. unfold round_half_up. split.
  - rewrite <- (Qfloor_Z lo). apply Qfloor_resp_le. lra.
  - assert (H : (Qfloor (q + (1 # 2)) < hi + 1)%Z).
    { rewrite Zlt_Qlt. rewrite inject_Z_plus. change (inject_Z 1) with 1%Q.
      pose proof (Qfloor_le (q + (1 # 2))). lra. }
    lia.
Qed.

End Rounding.

(** ** The overall score *)

Section Overall.

(** [score || 0] on a number keeps its value. *)
Lemma or_zero_value (q : Q) :
  exists q', to_number (or (Number (Num q)) (Number (n 0))) = Num q'
             /\ (q' == q)%Q.
Proof.
  unfold or, truthy, Qeqb. destruct (Qeq_bool q 0) eqn:E; simpl.
  - exists (inject_Z 0). split; [reflexivity|].
    apply Qeq_bool_eq in E. rewrite E. reflexivity.
  - exists q. split; reflexivity.
Qed.

Lemma overall_total (s e a l i : Q) :
  exists t, calculateOverallMatch (numeric_factors s e a l i)
            = Num (inject_Z (round_half_up t))
            /\ (t == weighted_sum s e a l i)%Q.
Proof.
  destruct (or_zero_value s) as (s' & Hs & Es).
  destruct (or_zero_value e) as (e' & He & Ee).
  destruct (or_zero_value a) as (a' & Ha & Ea).
  destruct (or_zero_value l) as (l' & Hl & El).
  destruct (or_zero_value i) as (i' & Hi & Ei).
  unfold calculateOverallMatch, numeric_factors, entries. cbn [fold_left].
  cbn [skillMatch experienceMatch availabilityMatch locationMatch
       interestMatch].
  rewrite Hs, He, Ha, Hl, Hi.
  exists (0 + s' * 0.4 + e' * 0.2 + a' * 0.15 + l' * 0.1 + i' * 0.15)%Q.
  split.
  - reflexivity.
  - unfold weighted_sum. rewrite Es, Ee, Ea, El, Ei. ring.
Qed.

Lemma weighted_sum_bounds (s e a l i : Q) :
  percent s -> percent e -> percent a -> percent l -> percent i ->
  (inject_Z 0 <= weighted_sum s e a l i)%Q
  /\ (weighted_sum s e a l i <= inject_Z 100)%Q.
Proof.
  unfold percent, weighted_sum. intros [] [] [] [] [].
  change (inject_Z 0) with 0%Q. change (inject_Z 100) with 100%Q.
  split; lra.
Qed.

(** The overall score of numeric sub-scores in range is the rounded
    weighted sum, between 0 and 100. *)
Lemma overall_numeric (s e a l i : Q) :
  percent s -> percent e -> percent a -> percent l -> percent i ->
  calculateOverallMatch (numeric_factors s e a l i)
  = n (round_half_up (weighted_sum s e a l i))
  /\ (0 <= round_half_up (weighted_sum s e a l i) <= 100)%Z.
Proof.
  intros Hs He Ha Hl Hi.
  destruct (overall_total s e a l i) as (t & Ht & Et).
  destruct (weighted_sum_bounds s e a l i Hs He Ha Hl Hi) as [Hlo Hhi].
  rewrite Ht, (round_half_up_comp _ _ Et). split; [reflexivity|].
  apply (round_half_up_bounds _ 0 100 Hlo Hhi).
Qed.



(** The weights add up to one. *)
Lemma weights_sum_to_one :
  num_eq (fold_left add (map snd weights) (n 0)) (Num 1).
Proof. reflexivity. Qed.

(** On the sub-scores of the sample pairs the binary64 evaluation and the
    exact one give the same integers. *)
Example overall_samples_exact :
  calculateOverallMatch (numeric_factors 0 50 50 50 50) = n 30
  /\ calculateOverallMatch (numeric_factors 0 25 75 50 50) = n 29
  /\ calculateOverallMatch (numeric_factors 0 75 50 50 50) = n 35
  /\ calculateOverallMatch (numeric_factors 70 100 50 50 50) = n 68
  /\ calculateOverallMatch
       {| skillMatch := Number NaN; experienceMatch := Number (n 100);
          availabilityMatch := Number (n 50); locationMatch := Number (n 50);
          interestMatch := Number (n 50) |} = n 40.
Proof. repeat split. Qed.

Example overall_samples_binary64 :
  Binary64.sample_scores = Binary64.sample_integers.
Proof. vm_compute. reflexivity. Qed.

End Overall.

(** ** The skill and experience factors *)

Section Factors.

(** Zero matches over a zero length: [0 / 0]. *)
Lemma skill_empty_required (userSkills : list string)
    (optionalSkills : option (list string)) :
  calculateSkillMatch (Some userSkills) (Some []) optionalSkills = NaN.
Proof. reflexivity. Qed.

(** C5. With a required-skills list that is present and empty,
    [calculateSkillMatch] divides zero matches by a zero length: for every
    user-skills list and every optional-skills argument the result is
    [NaN], not the value 0 that is returned when the list is absent. *)
Theorem calculateSkillMatch_empty_required_is_NaN
    (userSkills : list string) (optionalSkills : option (list string)) :
  calculateSkillMatch (Some userSkills) (Some []) optionalSkills = NaN
  /\ calculateSkillMatch (Some userSkills) None optionalSkills = n 0.
Proof. split; reflexivity. Qed.

Example calculateSkillMatch_empty_required_sample :
  calculateSkillMatch (Some ["javascript"; "react"]) (Some [])
                      (Some ["typescript"]) = NaN
  /\ Binary64.is_nan Binary64.empty_required = true.
Proof. split; reflexivity. Qed.

(** Case analysis on the comparisons of [s] with the keys of a table:
    [tac] closes the case of each key, the case of no key is left. *)
Tactic Notation "by_key" constr(s) tactic3(tac) :=
  repeat (match goal with
          | |- context [String.eqb ?k s] => destruct (String.eqb k s)
          end; [solve [tac]|]).

Lemma experience_lookup (userExperience : option string) :
  plain_key userExperience = true ->
  or (get_opt experienceMap userExperience) (Number (n 1))
  = Number (n (experience_level userExperience)).
Proof.
  destruct userExperience as [s|]; [|reflexivity].
  unfold plain_key, get_opt, get, experience_level. cbn [own experienceMap].
  intros H. apply negb_true_iff in H.
  by_key s reflexivity.
  cbn [own]. rewrite H. reflexivity.
Qed.

Lemma difficulty_lookup (projectDifficulty : option string) :
  plain_key projectDifficulty = true ->
  or (get_opt difficultyMap projectDifficulty) (Number (n 1))
  = Number (n (difficulty_level projectDifficulty)).
Proof.
  destruct projectDifficulty as [s|]; [|reflexivity].
  unfold plain_key, get_opt, get, difficulty_level. cbn [own difficultyMap].
  intros H. apply negb_true_iff in H.
  by_key s reflexivity.
  cbn [own]. rewrite H. reflexivity.
Qed.

Lemma experience_level_range (k : option string) :
  (1 <= experience_level k <= 4)%Z.
Proof.
  destruct k as [s|]; [|cbn; lia].
  unfold experience_level, difficulty_level.
  by_key s lia; lia.
Qed.

Lemma difficulty_level_range (k : option string) :
  (1 <= difficulty_level k <= 3)%Z.
Proof.
  destruct k as [s|]; [|cbn; lia].
  unfold experience_level, difficulty_level.
  by_key s lia; lia.
Qed.

(** On keys that are not inherited member names the function is the
    penalty curve over the two levels. *)
Lemma calculateExperienceMatch_plain_keys
    (userExperience projectDifficulty : option string) :
  plain_key userExperience = true -> plain_key projectDifficulty = true ->
  calculateExperienceMatch userExperience projectDifficulty
  = n (Z.max 0 (100 - 25 * Z.abs (experience_level userExperience
                                  - difficulty_level projectDifficulty))).
Proof.
  intros Hu Hp. unfold calculateExperienceMatch.
  rewrite (experience_lookup _ Hu), (difficulty_lookup _ Hp).
  pose proof (experience_level_range userExperience) as Ru.
  pose proof (difficulty_level_range projectDifficulty) as Rp.
  assert (Hcases :
    forall u p, (1 <= u <= 4)%Z -> (1 <= p <= 3)%Z ->
      max (n 0) (sub (n 100)
                     (mul (abs (sub (to_number (Number (n u)))
                                    (to_number (Number (n p))))) (n 25)))
      = n (Z.max 0 (100 - 25 * Z.abs (u - p)))).
  { intros u p Hu' Hp'.
    assert (Eu : (u = 1 \/ u = 2 \/ u = 3 \/ u = 4)%Z) by lia.
    assert (Ep : (p = 1 \/ p = 2 \/ p = 3)%Z) by lia.
    destruct Eu as [->|[->|[->| ->]]]; destruct Ep as [->|[->| ->]];
      reflexivity. }
  apply Hcases; assumption.
Qed.

(** The score depends on the distance between the levels only, not on
    its sign. *)
Example calculateExperienceMatch_symmetric :
  calculateExperienceMatch (Some "Mid Level") (Some "Advanced") = n 75
  /\ calculateExperienceMatch (Some "Senior Level") (Some "Intermediate") = n 75
  /\ calculateExperienceMatch (Some "Expert") (Some "Beginner") = n 25.
Proof. repeat split. Qed.

(** C9. [experienceMap] is an object literal, so a lookup also reaches the
    members inherited from [Object.prototype]: for the experience string
    "constructor", and for each of the other inherited names, the fallback
    to level 1 is not taken and the result is [NaN] whatever the
    difficulty, where an unrecognized or missing string scores 100
    against a Beginner project. *)
Theorem calculateExperienceMatch_inherited_key :
  calculateExperienceMatch (Some "constructor") (Some "Beginner") = NaN
  /\ Forall (fun key =>
               forall projectDifficulty,
                 calculateExperienceMatch (Some key) projectDifficulty = NaN)
            object_prototype_keys
  /\ calculateExperienceMatch (Some "unknown tier") (Some "Beginner") = n 100
  /\ calculateExperienceMatch None (Some "Beginner") = n 100.
Proof.
  split; [reflexivity|]. split; [|split; reflexivity].
  repeat constructor.
Qed.

End Factors.

(** ** The match collection *)

Section Collection.

Lemma same_pair_key (uid pid : ObjectId) (m : Match) :
  same_pair uid pid m = true <-> pair_key m = (uid, pid).
Proof.
  unfold same_pair, pair_key. rewrite andb_true_iff, !String.eqb_eq.
  split; [intros [-> ->]; reflexivity | intros [= -> ->]; auto].
Qed.

Lemma find_none_not_in (uid pid : ObjectId) (ms : list Match) :
  find (same_pair uid pid) ms = None -> ~ In (uid, pid) (map pair_key ms).
Proof.
  intros Hfind Hin. apply in_map_iff in Hin as (m & Hk & Hm).
  apply (find_none _ _ Hfind) in Hm.
  apply same_pair_key in Hk. congruence.
Qed.

Lemma unique_pairs_snoc (ms : list Match) (m : Match) :
  unique_pairs ms -> ~ In (pair_key m) (map pair_key ms) ->
  unique_pairs (ms ++ [m]).
Proof.
  unfold unique_pairs. intros Hu Hn. rewrite map_app. cbn [map].
  induction (map pair_key ms) as [|k ks IH]; cbn.
  - constructor; [intros [] | constructor].
  - inversion Hu as [|? ? Hk Hks]; subst. constructor.
    + rewrite in_app_iff. intros [H|[H|[]]]; [auto|].
      apply Hn. left. congruence.
    + apply IH; [assumption|]. intros H. apply Hn. now right.
Qed.

Lemma count_pair_snoc (uid pid : ObjectId) (ms : list Match) (m : Match) :
  count_pair uid pid (ms ++ [m])
  = (count_pair uid pid ms + (if same_pair uid pid m then 1 else 0))%nat.
Proof.
  unfold count_pair. rewrite filter_app, length_app. cbn [filter].
  destruct (same_pair uid pid m); reflexivity.
Qed.

Lemma count_pair_find_none (uid pid : ObjectId) (ms : list Match) :
  find (same_pair uid pid) ms = None -> count_pair uid pid ms = 0%nat.
Proof.
  unfold count_pair. induction ms as [|m ms IH]; cbn; [reflexivity|].
  destruct (same_pair uid pid m); [discriminate | exact IH].
Qed.

End Collection.

(** ** What a computation does to the collection *)

Section Preservation.

Variable I : list Match -> Prop.

Lemma preserves_bind {A B} (m : M A) (k : A -> M B) :
  preserves I m -> (forall a, preserves I (k a)) -> preserves I (bind m k).
Proof.
  intros Hm Hk w Hw. unfold bind. specialize (Hm w Hw).
  destruct (m w) as [[a|e] w1]; cbn in *; [now apply Hk | assumption].
Qed.

Lemma preserves_try_catch {A} (m : M A) (h : exn -> M A) :
  preserves I m -> (forall e, preserves I (h e)) -> preserves I (try_catch m h).
Proof.
  intros Hm Hh w Hw. unfold try_catch. specialize (Hm w Hw).
  destruct (m w) as [[a|e] w1]; cbn in *; [assumption | now apply Hh].
Qed.

Lemma preserves_for_of {A} (l : list A) (body : A -> M unit) :
  (forall x, preserves I (body x)) -> preserves I (for_of l body).
Proof.
  intros Hb. induction l as [|x l IH]; cbn [for_of].
  - intros w Hw. exact Hw.
  - apply preserves_bind; [apply Hb | intros _; exact IH].
Qed.

Lemma preserves_ret {A} (a : A) : preserves I (ret a).
Proof. intros w Hw. exact Hw. Qed.

Lemma preserves_throw {A} (e : exn) : preserves I (@throw A e).
Proof. intros w Hw. exact Hw. Qed.

Lemma preserves_lift {A} (o : outcome A) : preserves I (lift o).
Proof. intros w Hw. exact Hw. Qed.

Lemma preserves_logger (lvl : Level) (msg : string) :
  preserves I (logger lvl msg).
Proof. intros w Hw. exact Hw. Qed.

Lemma preserves_inc (type st : string) : preserves I (inc type st).
Proof. intros w Hw. exact Hw. Qed.

Lemma preserves_settle (s : Settlement) : preserves I (settle s).
Proof. intros w Hw. exact Hw. Qed.

End Preservation.

Create HintDb preserve.

#[local] Hint Resolve preserves_ret preserves_throw preserves_lift
  preserves_logger preserves_inc preserves_settle : preserve.

Section Pipelines.

(** The shared part of the loop body, case by case. *)
Lemma match_pair_cases (type : string) (uid : ObjectId) (user : User.doc)
    (project : Project.doc) (w : World) :
  match_pair type uid user project w =
  match find (same_pair uid (Project._id project)) (matches w) with
  | Some _ => (Ok tt, w)
  | None =>
      match calculateFactors user project with
      | Throw e => (Throw e, w)
      | Ok factors =>
          if ge (calculateOverallMatch factors) (n 30)
          then
            if validate (document w uid (Project._id project) factors)
            then (Ok tt,
                  created type w (document w uid (Project._id project) factors))
            else (Throw ValidationError, fresh_id w)
          else (Ok tt, w)
      end
  end.
Proof.
  unfold match_pair, bind, findOne. cbn [fst snd].
  destruct (find _ (matches w)) as [m|]; [reflexivity|].
  unfold lift. destruct (calculateFactors user project) as [factors|e];
    [|reflexivity].
  destruct (ge (calculateOverallMatch factors) (n 30)); [|reflexivity].
  unfold new_Match, save. cbn [fst snd].
  change {| _id := nextId w; userId := uid;
            projectId := Project._id project;
            matchScore := calculateOverallMatch factors;
            matchFactors := factors;
            matchReasons := generateMatchReasons factors;
            status := pending; feedback := None;
            createdAt := now w; updatedAt := now w |}
    with (document w uid (Project._id project) factors).
  destruct (validate _); [|reflexivity].
  unfold publish, inc, created, with_matches. cbn.
  destruct (channel w); reflexivity.
Qed.

(** One pass either leaves the collection alone or appends one document
    for a pair that had none. *)
Lemma match_pair_matches (type : string) (uid : ObjectId) (user : User.doc)
    (project : Project.doc) (w : World) :
  matches (snd (match_pair type uid user project w)) = matches w
  \/ (find (same_pair uid (Project._id project)) (matches w) = None
      /\ exists m,
           pair_key m = (uid, Project._id project)
           /\ matches (snd (match_pair type uid user project w))
              = matches w ++ [m]).
Proof.
  rewrite match_pair_cases.
  destruct (find _ (matches w)) as [m|] eqn:Hfind; [left; reflexivity|].
  destruct (calculateFactors user project) as [factors|e];
    [|left; reflexivity].
  destruct (ge _ _); [|left; reflexivity].
  destruct (validate _); [|left; reflexivity].
  right. split; [reflexivity|].
  exists (document w uid (Project._id project) factors).
  split; reflexivity.
Qed.

(** An existing record makes the pass a no-op: nothing is written,
    published, logged or thrown. *)
Lemma match_pair_existing (type : string) (uid : ObjectId) (user : User.doc)
    (project : Project.doc) (w : World) :
  persisted uid (Project._id project) w = true ->
  match_pair type uid user project w = (Ok tt, w).
Proof.
  intros Hp. rewrite match_pair_cases.
  destruct (find _ (matches w)) as [m|] eqn:Hfind; [reflexivity|].
  apply existsb_exists in Hp as (m & Hin & Hm).
  apply (find_none _ _ Hfind) in Hin. congruence.
Qed.

(** A pass that throws has written nothing. *)
Lemma match_pair_throw (type : string) (uid : ObjectId) (user : User.doc)
    (project : Project.doc) (w w' : World) (e : exn) :
  match_pair type uid user project w = (Throw e, w') ->
  matches w' = matches w.
Proof.
  rewrite match_pair_cases.
  destruct (find _ (matches w)); [discriminate|].
  destruct (calculateFactors user project) as [factors|e'].
  - destruct (ge _ _); [|discriminate].
    destruct (validate _); [discriminate|]. now intros [= _ <-].
  - now intros [= _ <-].
Qed.

Lemma update_first_keys (f : Match -> Match) (id : nat) (ms : list Match) :
  (forall m, pair_key (f m) = pair_key m) ->
  map pair_key (snd (update_first f id ms)) = map pair_key ms.
Proof.
  intros Hf. induction ms as [|m ms IH]; cbn; [reflexivity|].
  destruct (Nat.eqb (_id m) id); cbn.
  - now rewrite Hf.
  - destruct (update_first f id ms) as [r rest]. cbn in *. now rewrite IH.
Qed.

(** Invariants that an insertion for a pair without record keeps, and
    that only look at the pairs of the collection. *)
Section Invariant.

Variable I : list Match -> Prop.
Hypothesis I_insert :
  forall ms m,
    I ms -> find (same_pair (userId m) (projectId m)) ms = None ->
    I (ms ++ [m]).
Hypothesis I_keys :
  forall ms ms', map pair_key ms' = map pair_key ms -> I ms -> I ms'.

Lemma preserves_match_pair (type : string) (uid : ObjectId) (user : User.doc)
    (project : Project.doc) :
  preserves I (match_pair type uid user project).
Proof.
  intros w Hw.
  destruct (match_pair_matches type uid user project w)
    as [-> | (Hfind & m & Hk & ->)]; [assumption|].
  apply I_insert; [assumption|].
  unfold pair_key in Hk. injection Hk as -> ->. exact Hfind.
Qed.

Lemma preserves_generateMatchesForUser (env : Env) (uid : ObjectId) :
  preserves I (generateMatchesForUser env uid).
Proof.
  unfold generateMatchesForUser.
  apply preserves_try_catch; intros;
    repeat (apply preserves_bind; intros); auto with preserve.
  apply preserves_for_of. intros project. unfold user_candidate.
  apply preserves_bind; auto with preserve.
  intros [|]; [auto with preserve | apply preserves_match_pair].
Qed.

Lemma preserves_generateMatchesForProject (env : Env) (pid : ObjectId) :
  preserves I (generateMatchesForProject env pid).
Proof.
  unfold generateMatchesForProject.
  apply preserves_try_catch; intros;
    repeat (apply preserves_bind; intros); auto with preserve.
  - destruct (Project.requiredSkills _); auto with preserve.
  - apply preserves_for_of. intros user. apply preserves_match_pair.
Qed.

Lemma preserves_findByIdAndUpdate (id : nat)
    (update : World -> Match -> Match) :
  (forall w m, pair_key (update w m) = pair_key m) ->
  preserves I (findByIdAndUpdate id update).
Proof.
  intros Hk w Hw. unfold findByIdAndUpdate.
  pose proof (update_first_keys (update w) id (matches w) (Hk w)) as E.
  destruct (update_first (update w) id (matches w)) as [r ms]. cbn in *.
  exact (I_keys _ _ E Hw).
Qed.

Lemma serve_preserves (r : Request) (w : World) :
  I (matches w) -> I (matches (serve r w)).
Proof.
  revert w. destruct r as [env [msg|]|env [msg|]|env uid pid|id st|id r c h];
    cbn [serve]; try (intros w Hw; exact Hw).
  - change (preserves I (consume_user_events env (Some msg))).
    unfold consume_user_events, handleUserEvent.
    apply preserves_try_catch; intros;
      repeat (apply preserves_bind; intros); auto with preserve.
    destruct (_ || _); auto with preserve.
    apply preserves_generateMatchesForUser.
  - change (preserves I (consume_project_events env (Some msg))).
    unfold consume_project_events, handleProjectEvent.
    apply preserves_try_catch; intros;
      repeat (apply preserves_bind; intros); auto with preserve.
    destruct (String.eqb _ _); auto with preserve.
    apply preserves_generateMatchesForProject.
  - change (preserves I (post_generate env uid pid)).
    unfold post_generate.
    apply preserves_try_catch; intros;
      [|repeat (apply preserves_bind; intros); auto with preserve].
    destruct uid as [[|c u]|]; destruct pid as [[|c' p]|];
      repeat (apply preserves_bind; intros); auto with preserve;
      first [apply preserves_generateMatchesForUser
            |apply preserves_generateMatchesForProject].
  - change (preserves I (put_status id st)).
    unfold put_status.
    apply preserves_try_catch; intros;
      [|repeat (apply preserves_bind; intros); auto with preserve].
    destruct (match st with Some s => status_of_string s | None => None end);
      auto with preserve.
    apply preserves_bind; [now apply preserves_findByIdAndUpdate|].
    intros [m|]; auto with preserve.
  - change (preserves I (post_feedback id r c h)).
    unfold post_feedback.
    apply preserves_try_catch; intros;
      [|repeat (apply preserves_bind; intros); auto with preserve].
    apply preserves_bind; [now apply preserves_findByIdAndUpdate|].
    intros [m|]; auto with preserve.
Qed.

Lemma run_preserves (rs : list Request) (w : World) :
  I (matches w) -> I (matches (run rs w)).
Proof.
  revert w. induction rs as [|r rs IH]; intros w Hw; cbn; [exact Hw|].
  apply IH. now apply serve_preserves.
Qed.

End Invariant.

End Pipelines.

(** ** Idempotence per pair *)

Section Idempotence.

Lemma count_pair_keys (uid pid : ObjectId) (ms ms' : list Match) :
  map pair_key ms' = map pair_key ms ->
  count_pair uid pid ms' = count_pair uid pid ms.
Proof.
  unfold count_pair. revert ms'.
  induction ms as [|m ms IH]; intros [|m' ms'] E; try discriminate;
    [reflexivity|].
  cbn [map] in E. unfold pair_key at 1 3 in E. injection E as Eu Ep E.
  cbn [filter].
  assert (Hs : same_pair uid pid m' = same_pair uid pid m).
  { unfold same_pair. now rewrite Eu, Ep. }
  rewrite Hs. destruct (same_pair uid pid m); cbn; rewrite (IH _ E);
    reflexivity.
Qed.

(** A [try] whose handler returns: whatever the body does, the result is
    a normal return. *)
Ltac caught_or_done w :=
  match goal with
  | |- context [bind ?m ?k w] =>
      destruct (bind m k w) as [[[]|?] ?]; reflexivity
  end.

(** Neither pipeline lets an error out: each ends in a [catch] that logs
    and counts. *)
Lemma generateMatchesForUser_returns (env : Env) (uid : ObjectId) (w : World) :
  fst (generateMatchesForUser env uid w) = Ok tt.
Proof.
  unfold generateMatchesForUser, try_catch.
  caught_or_done w.
Qed.

Lemma generateMatchesForProject_returns (env : Env) (pid : ObjectId)
    (w : World) :
  fst (generateMatchesForProject env pid w) = Ok tt.
Proof.
  unfold generateMatchesForProject, try_catch.
  caught_or_done w.
Qed.

(** C2. Match creation is idempotent per pair. Whatever requests are
    served one after the other (deliveries on either queue, manual
    generation, status and feedback calls), a collection with at most one
    record per (user, project) pair keeps that property, and the number
    of records of a pair that already has one never changes; when the
    loop body meets a pair that has a record it returns normally and
    leaves the whole state untouched, and neither pipeline ever lets an
    error out. *)
Theorem match_creation_idempotent (rs : list Request) (w : World) :
  unique_pairs (matches w) ->
  unique_pairs (matches (run rs w))
  /\ (forall uid pid,
        (1 <= count_pair uid pid (matches w))%nat ->
        count_pair uid pid (matches (run rs w))
        = count_pair uid pid (matches w))
  /\ (forall type uid user project,
        persisted uid (Project._id project) w = true ->
        match_pair type uid user project w = (Ok tt, w))
  /\ (forall env uid pid,
        fst (generateMatchesForUser env uid w) = Ok tt
        /\ fst (generateMatchesForProject env pid w) = Ok tt).
Proof.
  intros Hu. split; [|split; [|split]].
  - apply run_preserves with (I := unique_pairs); [| |exact Hu].
    + intros ms m Hms Hfind. apply unique_pairs_snoc; [assumption|].
      now apply find_none_not_in.
    + unfold unique_pairs. intros ms ms' E H. now rewrite E.
  - intros uid pid Hc.
    apply run_preserves
      with (I := fun ms => count_pair uid pid ms
                           = count_pair uid pid (matches w));
      [| |reflexivity].
    + intros ms m Hms Hfind. rewrite count_pair_snoc.
      destruct (same_pair uid pid m) eqn:Hs; [|lia].
      apply same_pair_key in Hs. unfold pair_key in Hs.
      injection Hs as Eu Ep. rewrite Eu, Ep in Hfind.
      apply count_pair_find_none in Hfind. lia.
    + intros ms ms' E H. now rewrite (count_pair_keys _ _ _ _ E).
  - intros type uid user project. apply match_pair_existing.
  - intros env uid pid. split.
    + apply generateMatchesForUser_returns.
    + apply generateMatchesForProject_returns.
Qed.

Lemma match_creation_idempotent_witness :
  unique_pairs
    (matches (run [generate_call Samples.catalogue (Some "u1") None;
                   user_delivery Samples.catalogue
                     (Some (Samples.user_created "u1"))]
                  (Samples.one_match viewed)))
  /\ (forall uid pid,
        (1 <= count_pair uid pid (matches (Samples.one_match viewed)))%nat ->
        count_pair uid pid
          (matches (run [generate_call Samples.catalogue (Some "u1") None;
                         user_delivery Samples.catalogue
                           (Some (Samples.user_created "u1"))]
                        (Samples.one_match viewed)))
        = count_pair uid pid (matches (Samples.one_match viewed)))
  /\ (forall type uid user project,
        persisted uid (Project._id project) (Samples.one_match viewed) = true ->
        match_pair type uid user project (Samples.one_match viewed)
        = (Ok tt, Samples.one_match viewed))
  /\ (forall env uid pid,
        fst (generateMatchesForUser env uid (Samples.one_match viewed)) = Ok tt
        /\ fst (generateMatchesForProject env pid (Samples.one_match viewed))
           = Ok tt).
Proof.
  apply (match_creation_idempotent
           [generate_call Samples.catalogue (Some "u1") None;
            user_delivery Samples.catalogue (Some (Samples.user_created "u1"))]
           (Samples.one_match viewed)).
  constructor; [intros [] | constructor].
Defined.

(** The stored pair (u1, p3) is met again by both triggers and skipped;
    the pair (u1, p1) is created by the first trigger and skipped by the
    second. *)
Example generate_again_one_record_per_pair :
  map pair_key (matches (Samples.one_match viewed)) = [("u1", "p3")]
  /\ map pair_key
       (matches (run [generate_call Samples.catalogue (Some "u1") None;
                      user_delivery Samples.catalogue
                        (Some (Samples.user_created "u1"))]
                     (Samples.one_match viewed)))
     = [("u1", "p3"); ("u1", "p1")].
Proof. split; vm_compute; reflexivity. Qed.

End Idempotence.

(** ** The creation threshold *)

Section Threshold.

Lemma valid_percent_numeric (q : Q) :
  percent q -> valid_percent (Number (Num q)) = true.
Proof.
  intros [Hlo Hhi]. unfold valid_percent, le, Qleb.
  apply andb_true_iff. split; apply Qle_bool_iff; assumption.
Qed.

(** A document whose sub-scores are numbers in [0,100] passes the
    validators of the schema. *)
Lemma validate_numeric (w : World) (uid pid : ObjectId) (s e a l i : Q) :
  percent s -> percent e -> percent a -> percent l -> percent i ->
  validate (document w uid pid (numeric_factors s e a l i)) = true.
Proof.
  intros Hs He Ha Hl Hi.
  destruct (overall_numeric s e a l i Hs He Ha Hl Hi) as (Hz & Hz0 & Hz100).
  unfold validate, document.
  cbn [matchScore matchFactors skillMatch experienceMatch availabilityMatch
       locationMatch interestMatch numeric_factors].
  rewrite Hz.
  rewrite !valid_percent_numeric by assumption.
  rewrite !andb_true_r. unfold le, n, Qleb.
  apply andb_true_iff. split; apply Qle_bool_iff; rewrite <- Zle_Qle;
    assumption.
Qed.

Lemma persisted_find (uid pid : ObjectId) (w : World) :
  persisted uid pid w = false ->
  find (same_pair uid pid) (matches w) = None.
Proof.
  unfold persisted. intros H.
  destruct (find (same_pair uid pid) (matches w)) as [m|] eqn:Hfind;
    [|reflexivity].
  apply find_some in Hfind as [Hin Hm].
  assert (existsb (same_pair uid pid) (matches w) = true)
    by (apply existsb_exists; eauto).
  congruence.
Qed.

Lemma persisted_created (type : string) (uid pid : ObjectId) (w : World)
    (factors : Factors) :
  persisted uid pid (created type w (document w uid pid factors)) = true.
Proof.
  unfold persisted, created. cbn [matches].
  rewrite existsb_app. apply orb_true_iff. right. cbn.
  unfold same_pair. cbn. now rewrite !String.eqb_refl.
Qed.

(** The comparison [matchScore >= 30] on an integer score. *)
Lemma ge_30 (z : Z) : ge (n z) (n 30) = (30 <=? z)%Z.
Proof.
  unfold ge, le, n, Qleb. apply eq_true_iff_eq.
  rewrite Qle_bool_iff, <- Zle_Qle. symmetry. apply Z.leb_le.
Qed.

(** For any scored pair without record: it is persisted exactly when its
    score passes the threshold and its document passes the validators. *)
Lemma creation_condition (type : string) (uid : ObjectId) (user : User.doc)
    (project : Project.doc) (w : World) (factors : Factors) :
  persisted uid (Project._id project) w = false ->
  calculateFactors user project = Ok factors ->
  persisted uid (Project._id project)
            (snd (match_pair type uid user project w)) = true
  <-> ge (calculateOverallMatch factors) (n 30) = true
      /\ validate (document w uid (Project._id project) factors) = true.
Proof.
  intros Hp Hf. rewrite match_pair_cases, (persisted_find _ _ _ Hp), Hf.
  destruct (ge _ _); [destruct (validate _)|]; cbn [snd].
  - split; [auto|]. intros _. apply persisted_created.
  - change (persisted uid (Project._id project) (fresh_id w))
      with (persisted uid (Project._id project) w).
    rewrite Hp. split; [discriminate | intros [_ H]; discriminate].
  - rewrite Hp. split; [discriminate | intros [H _]; discriminate].
Qed.



(** The boundary: a pair scoring exactly 30 is created, a pair scoring 29
    leaves the state as it was. *)
Example threshold_boundary :
  (exists factors,
     calculateFactors Samples.senior Samples.rust_intro = Ok factors
     /\ calculateOverallMatch factors = n 30)
  /\ map pair_key
       (matches (snd (match_pair "user" "u1" Samples.senior Samples.rust_intro
                                 (initial true))))
     = [("u1", "p1")]
  /\ (exists factors,
        calculateFactors Samples.expert Samples.rust_intro = Ok factors
        /\ calculateOverallMatch factors = n 29)
  /\ match_pair "user" "u2" Samples.expert Samples.rust_intro (initial true)
     = (Ok tt, initial true).
Proof.
  repeat split; try (vm_compute; reflexivity); eexists; split; reflexivity.
Qed.

End Threshold.

(** ** Status updates and feedback *)

Section Routes.

Lemma status_of_string_includes (s : string) :
  str_in s statuses = true <-> exists st, status_of_string s = Some st.
Proof.
  unfold str_in, statuses, status_of_string. cbn [existsb].
  repeat (match goal with
          | |- context [String.eqb s ?k] => destruct (String.eqb s k)
          end; [split; [eauto | reflexivity]|]).
  cbn. split; [discriminate | intros [st H]; discriminate].
Qed.

Lemma update_first_findById (f : Match -> Match) (id : nat) (ms : list Match) :
  fst (update_first f id ms) = option_map f (findById id ms).
Proof.
  unfold findById. induction ms as [|m ms IH]; cbn; [reflexivity|].
  destruct (Nat.eqb (_id m) id); [reflexivity|].
  destruct (update_first f id ms) as [r rest]. exact IH.
Qed.

Lemma findById_update_first (f : Match -> Match) (id id' : nat)
    (ms : list Match) :
  (forall m, _id (f m) = _id m) ->
  findById id' (snd (update_first f id ms))
  = if Nat.eqb id' id then option_map f (findById id ms)
    else findById id' ms.
Proof.
  intros Hf. unfold findById. induction ms as [|m ms IH]; cbn.
  - now destruct (Nat.eqb id' id).
  - destruct (Nat.eqb (_id m) id) eqn:E; cbn.
    + rewrite Hf. apply Nat.eqb_eq in E.
      destruct (Nat.eqb id' id) eqn:E'.
      * apply Nat.eqb_eq in E'. subst. now rewrite Nat.eqb_refl.
      * destruct (Nat.eqb (_id m) id') eqn:E''; [|reflexivity].
        apply Nat.eqb_eq in E''. apply Nat.eqb_neq in E'. congruence.
    + destruct (update_first f id ms) as [r rest]. cbn in *.
      destruct (Nat.eqb (_id m) id') eqn:E''; [|exact IH].
      destruct (Nat.eqb id' id) eqn:E'; [|reflexivity].
      apply Nat.eqb_eq in E', E''. apply Nat.eqb_neq in E. congruence.
Qed.

Lemma update_first_statuses (f : Match -> Match) (id : nat) (ms : list Match) :
  (forall m, status (f m) = status m) ->
  map status (snd (update_first f id ms)) = map status ms.
Proof.
  intros Hf. induction ms as [|m ms IH]; cbn; [reflexivity|].
  destruct (Nat.eqb (_id m) id); cbn.
  - now rewrite Hf.
  - destruct (update_first f id ms) as [r rest]. cbn in *. now rewrite IH.
Qed.

(** What [PUT /api/matches/:matchId/status] answers and writes. *)
Lemma put_status_spec (matchId : nat) (status : option string) (w : World) :
  put_status matchId status w =
  match match status with Some s => status_of_string s | None => None end with
  | None => (Ok {| code := 400; body := error_body "Invalid status" |}, w)
  | Some st =>
      let ms := snd (update_first (set_status st w) matchId (matches w)) in
      match findById matchId (matches w) with
      | None =>
          (Ok {| code := 404; body := error_body "Match not found" |},
           with_matches w ms)
      | Some m =>
          (Ok {| code := 200;
                 body := match_body "Match status updated"
                                    (set_status st w m) |},
           with_matches w ms)
      end
  end.
Proof.
  unfold put_status, try_catch, bind, findByIdAndUpdate.
  destruct (match status with Some s => status_of_string s | None => None end)
    as [st|]; [|reflexivity].
  pose proof (update_first_findById (set_status st w) matchId (matches w)) as E.
  destruct (update_first (set_status st w) matchId (matches w)) as [r ms].
  cbn in *. subst r. destruct (findById matchId (matches w)); reflexivity.
Qed.

(** C3. The status route checks the target against the five status names
    and nothing else: for a match that exists, every one of the five
    targets is accepted with 200 whatever the current status (so a move
    from applied back to pending succeeds), the stored status becomes
    the target, a target outside the five names is refused with 400
    "Invalid status" and an unknown match with 404 "Match not found";
    every request gets one of these three answers. *)
Theorem put_status_accepts_any_listed_status
    (matchId : nat) (status : option string) (w : World) :
  let r := put_status matchId status w in
  match match status with Some s => status_of_string s | None => None end,
        findById matchId (matches w) with
  | None, _ =>
      fst r = Ok {| code := 400; body := error_body "Invalid status" |}
      /\ snd r = w
  | Some st, None =>
      fst r = Ok {| code := 404; body := error_body "Match not found" |}
      /\ matches (snd r) = matches w
  | Some st, Some m =>
      fst r = Ok {| code := 200;
                    body := match_body "Match status updated"
                                       (set_status st w m) |}
      /\ findById matchId (matches (snd r)) = Some (set_status st w m)
      /\ Service.status (set_status st w m) = st
  end.
Proof.
  cbn zeta. rewrite put_status_spec.
  destruct (match status with Some s => status_of_string s | None => None end)
    as [st|]; [|split; reflexivity].
  destruct (findById matchId (matches w)) as [m|] eqn:Hm; cbn [fst snd].
  - repeat split. cbn [matches with_matches].
    rewrite findById_update_first by reflexivity.
    now rewrite Nat.eqb_refl, Hm.
  - split; [reflexivity|]. cbn [matches with_matches].
    clear -Hm. unfold findById in Hm.
    induction (matches w) as [|m ms IH]; cbn; [reflexivity|].
    cbn in Hm. destruct (Nat.eqb (_id m) matchId); [discriminate|].
    destruct (update_first _ matchId ms) as [r rest]. cbn in *.
    now rewrite IH.
Qed.

(** The claim fails where it forbids: applied to pending is accepted. *)
Lemma put_status_applied_to_pending :
  allowed_transition applied pending = false
  /\ map Service.status (matches (Samples.one_match applied)) = [applied]
  /\ (exists m,
        fst (put_status 7 (Some "pending") (Samples.one_match applied))
        = Ok {| code := 200; body := match_body "Match status updated" m |})
  /\ map Service.status
         (matches (snd (put_status 7 (Some "pending")
                                   (Samples.one_match applied))))
     = [pending].
Proof.
  repeat split. eexists. reflexivity.
Qed.

(** C8. Attaching feedback to a match that exists is answered with 200
    whatever the status of the match; the stored document differs from
    the old one in [feedback] and [updatedAt] only, every other document
    is untouched, and no status in the collection changes. *)
Theorem post_feedback_keeps_status (matchId : nat) (rating : option Q)
    (comment : option string) (helpful : option bool) (w : World) (m : Match) :
  findById matchId (matches w) = Some m ->
  let fb := {| rating := rating; comment := comment; helpful := helpful |} in
  let r := post_feedback matchId rating comment helpful w in
  let m' := set_feedback fb w m in
  fst r = Ok {| code := 200; body := match_body "Feedback submitted" m' |}
  /\ findById matchId (matches (snd r)) = Some m'
  /\ Service.status m' = Service.status m
  /\ (_id m', userId m', projectId m', matchScore m', matchFactors m',
      matchReasons m', createdAt m')
     = (_id m, userId m, projectId m, matchScore m, matchFactors m,
        matchReasons m, createdAt m)
  /\ feedback m' = Some fb /\ updatedAt m' = now w
  /\ (forall id, id <> matchId ->
        findById id (matches (snd r)) = findById id (matches w))
  /\ map Service.status (matches (snd r)) = map Service.status (matches w).
Proof.
  intros Hm fb r m'.
  assert (Hr : r = (Ok {| code := 200;
                          body := match_body "Feedback submitted" m' |},
                    with_matches w
                      (snd (update_first (set_feedback fb w) matchId
                                         (matches w))))).
  { subst r. unfold post_feedback, try_catch, bind, findByIdAndUpdate.
    fold fb.
    pose proof (update_first_findById (set_feedback fb w) matchId (matches w))
      as E.
    destruct (update_first (set_feedback fb w) matchId (matches w)) as [x ms].
    cbn in *. subst x. rewrite Hm. reflexivity. }
  rewrite Hr. cbn [fst snd matches with_matches].
  repeat split.
  - rewrite findById_update_first by reflexivity.
    now rewrite Nat.eqb_refl, Hm.
  - intros id Hid. rewrite findById_update_first by reflexivity.
    apply Nat.eqb_neq in Hid. now rewrite Hid.
  - now apply update_first_statuses.
Qed.

Lemma post_feedback_keeps_status_witness :
  fst (post_feedback 7 (Some 4%Q) (Some "useful") (Some true)
                     (Samples.one_match applied))
  = Ok {| code := 200;
          body := match_body "Feedback submitted"
                    (set_feedback {| rating := Some 4%Q;
                                     comment := Some "useful";
                                     helpful := Some true |}
                                  (Samples.one_match applied)
                                  (Samples.stored applied)) |}
  /\ map Service.status
       (matches (snd (post_feedback 7 (Some 4%Q) (Some "useful") (Some true)
                                    (Samples.one_match applied))))
     = [applied].
Proof.
  destruct (post_feedback_keeps_status 7 (Some 4%Q) (Some "useful") (Some true)
              (Samples.one_match applied)
              (Samples.stored applied) eq_refl)
    as (Hr & _ & _ & _ & _ & _ & _ & Hst).
  split; [exact Hr | exact Hst].
Defined.

End Routes.

(** ** Failures inside a batch and failures of the collaborators *)

Section Failures.

(** A loop stops at the first iteration that throws: the iterations
    after it are not run. *)
Lemma for_of_stops {A} (body : A -> M unit) (before after : list A) (x : A)
    (w w1 w2 : World) (e : exn) :
  for_of before body w = (Ok tt, w1) ->
  body x w1 = (Throw e, w2) ->
  for_of (before ++ x :: after) body w = (Throw e, w2).
Proof.
  revert w. induction before as [|y before IH]; intros w Hb Hx; cbn in *.
  - injection Hb as <-. unfold bind. now rewrite Hx.
  - unfold bind in *. destruct (body y w) as [[[]|e'] w'].
    + now apply IH.
    + discriminate.
Qed.

Lemma user_candidate_throw (uid : ObjectId) (user : User.doc)
    (project : Project.doc) (w w' : World) (e : exn) :
  user_candidate uid user project w = (Throw e, w') ->
  matches w' = matches w.
Proof.
  unfold user_candidate, bind, lift.
  destruct (is_collaborator project uid) as [[|]|e'].
  - discriminate.
  - apply match_pair_throw.
  - now intros [= _ <-].
Qed.

(** C6. One [try] block surrounds the whole loop of
    [generateMatchesForUser]: when the processing of a candidate throws,
    the candidates after it are not examined. The run still returns
    normally; the collection is the one reached before the failing
    candidate, whatever the remaining candidates are, and the failure is
    logged and counted once. *)
Theorem batch_stops_at_failing_candidate (env : Env) (uid : ObjectId)
    (user : User.doc) (before after : list Project.doc)
    (failing : Project.doc) (w w1 w2 : World) (e : exn) :
  getUser env uid = Ok user ->
  getActiveProjects env = Ok (before ++ failing :: after) ->
  for_of before (user_candidate uid user) w = (Ok tt, w1) ->
  user_candidate uid user failing w1 = (Throw e, w2) ->
  fst (generateMatchesForUser env uid w) = Ok tt
  /\ matches (snd (generateMatchesForUser env uid w)) = matches w1
  /\ log (snd (generateMatchesForUser env uid w))
     = log w2 ++ [(error, "Error generating matches for user:")]
  /\ counter (snd (generateMatchesForUser env uid w))
     = counter w2 ++ [("user", "error")].
Proof.
  intros Hu Hp Hb Hx.
  pose proof (for_of_stops _ before after failing w w1 w2 e Hb Hx) as Hfor.
  pose proof (user_candidate_throw _ _ _ _ _ _ Hx) as Hms.
  unfold generateMatchesForUser, try_catch, bind, lift.
  rewrite Hu, Hp, Hfor. cbn. repeat split. exact Hms.
Qed.

Lemma batch_stops_at_failing_candidate_witness :
  fst (generateMatchesForUser Samples.batch "u1" (initial true)) = Ok tt
  /\ matches (snd (generateMatchesForUser Samples.batch "u1" (initial true)))
     = matches Samples.after_first
  /\ log (snd (generateMatchesForUser Samples.batch "u1" (initial true)))
     = log Samples.after_failure
       ++ [(error, "Error generating matches for user:")]
  /\ counter (snd (generateMatchesForUser Samples.batch "u1" (initial true)))
     = counter Samples.after_failure ++ [("user", "error")].
Proof.
  apply (batch_stops_at_failing_candidate Samples.batch "u1" Samples.senior
           [Samples.rust_intro] [Samples.python_advanced] Samples.open_call
           (initial true) Samples.after_first Samples.after_failure
           ValidationError);
    vm_compute; reflexivity.
Defined.

(** The claim fails on both pipelines. A project that would be matched on
    its own is not matched when it comes after a candidate whose document
    is refused by [save]; a user who would be matched alone is not matched
    when they come after a candidate without profile. *)
Lemma candidate_after_failure_not_persisted :
  persisted "u1" "p3"
    (snd (generateMatchesForUser
            (Samples.serving Samples.senior [Samples.python_advanced]
                             Samples.rust_intro [])
            "u1" (initial true))) = true
  /\ fst (user_candidate "u1" Samples.senior Samples.open_call (initial true))
     = Throw ValidationError
  /\ persisted "u1" "p3"
       (snd (generateMatchesForUser
               (Samples.serving Samples.senior
                  [Samples.open_call; Samples.python_advanced]
                  Samples.rust_intro [])
               "u1" (initial true))) = false
  /\ persisted "u1" "p3"
       (snd (generateMatchesForProject
               (Samples.serving Samples.senior [] Samples.python_advanced
                                [Samples.senior])
               "p3" (initial true))) = true
  /\ (exists msg,
        fst (project_candidate Samples.python_advanced Samples.no_profile
                               (initial true))
        = Throw (TypeError msg))
  /\ persisted "u1" "p3"
       (snd (generateMatchesForProject
               (Samples.serving Samples.senior [] Samples.python_advanced
                                [Samples.no_profile; Samples.senior])
               "p3" (initial true))) = false.
Proof.
  repeat split; try (vm_compute; reflexivity).
  eexists. vm_compute. reflexivity.
Qed.

(** When the user or the list of projects cannot be fetched, the pipeline
    catches the error itself: nothing is written or published, and the
    caller sees a normal return. *)
Lemma generateMatchesForUser_fetch_failure (env : Env) (uid : ObjectId)
    (w : World) (e : exn) :
  user_fetch_fails env uid e ->
  generateMatchesForUser env uid w
  = (Ok tt,
     snd (inc "user" "error"
            (snd (logger error "Error generating matches for user:" w)))).
Proof.
  unfold generateMatchesForUser, try_catch, bind, lift.
  intros [H | [[user Hu] Hp]].
  - now rewrite H.
  - now rewrite Hu, Hp.
Qed.





End Failures.

(** ** A sub-score that is not a number *)

Section NotANumber.

(** Tags that are present but empty, with declared interests: [0 / 0]. *)
Lemma interest_empty_tags (types userInterests : list string)
    (avail projectCategory : option string) :
  calculateInterestMatch
    (Some {| projectTypes := Some types; interests := Some userInterests;
             availability := avail |})
    projectCategory (Some []) = NaN.
Proof.
  unfold calculateInterestMatch. cbn [projectTypes interests].
  destruct (match projectCategory with
            | Some c => str_in c types
            | None => false
            end); reflexivity.
Qed.







End NotANumber.

(** * Further properties of the code *)

Import Notions.

(** ** Ranges of the sub-scores *)

Section Ranges.

Lemma of_nat_div (k m : nat) :
  m <> 0%nat -> div (of_nat k) (of_nat m) = Num (ratio k m).
Proof.
  intros Hm. unfold div, of_nat, ratio, Qeqb.
  destruct (Qeq_bool (inject_Z (Z.of_nat m)) 0) eqn:E; [|reflexivity].
  apply Qeq_bool_eq in E. unfold Qeq in E. cbn in E. lia.
Qed.

Lemma ratio_bounds (k m : nat) :
  (k <= m)%nat -> m <> 0%nat -> (0 <= ratio k m /\ ratio k m <= 1)%Q.
Proof.
  intros Hk Hm. unfold ratio.
  assert (Hpos : (0 < inject_Z (Z.of_nat m))%Q).
  { change 0%Q with (inject_Z 0). rewrite <- Zlt_Qlt. lia. }
  split.
  - apply Qle_shift_div_l; [exact Hpos|].
    rewrite Qmult_0_l. change 0%Q with (inject_Z 0). rewrite <- Zle_Qle. lia.
  - apply Qle_shift_div_r; [exact Hpos|].
    rewrite Qmult_1_l. rewrite <- Zle_Qle. lia.
Qed.

Lemma ratio_full (m : nat) : m <> 0%nat -> (ratio m m == 1)%Q.
Proof.
  intros Hm. unfold ratio. field.
  intros E. unfold Qeq in E. cbn in E. lia.
Qed.

Lemma filter_length_le {A} (p : A -> bool) (l : list A) :
  (List.length (filter p l) <= List.length l)%nat.
Proof.
  induction l as [|x l IH]; cbn; [lia|].
  destruct (p x); cbn; lia.
Qed.

Lemma filter_map_length {A B} (f : A -> B) (p : B -> bool) (l : list A) :
  List.length (filter p (map f l))
  = List.length (filter (fun x => p (f x)) l).
Proof.
  induction l as [|x l IH]; cbn; [reflexivity|].
  destruct (p (f x)); cbn; rewrite IH; reflexivity.
Qed.

(** [Math.min(100, x)] for a number that does not exceed 100. *)
Lemma min_100 (x : Q) :
  (x <= 100)%Q ->
  exists q, min (n 100) (Num x) = Num q /\ (q == x)%Q.
Proof.
  intros Hx. unfold min, n, le, Qleb.
  destruct (Qle_bool (inject_Z 100) x) eqn:E.
  - exists (inject_Z 100). split; [reflexivity|].
    apply Qle_bool_iff in E. change (inject_Z 100) with 100%Q in *.
    apply Qle_antisym; assumption.
  - exists x. split; reflexivity.
Qed.

Lemma share_bounds (userSkills l : list string) :
  l <> [] -> (0 <= share userSkills l /\ share userSkills l <= 1)%Q.
Proof.
  intros Hl. unfold share. apply ratio_bounds.
  - apply filter_length_le.
  - destruct l; [congruence | cbn; lia].
Qed.

Lemma optional_share_bounds (userSkills : list string)
    (optionalSkills : option (list string)) :
  (0 <= optional_share userSkills optionalSkills
   /\ optional_share userSkills optionalSkills <= 1)%Q.
Proof.
  destruct optionalSkills as [[|skill l]|]; cbn [optional_share];
    try (split; lra).
  apply share_bounds. discriminate.
Qed.

(** The required and the optional part, as the source computes them. *)
Lemma skill_parts (userSkills l : list string) :
  l <> [] ->
  div (of_nat (List.length
                 (filter (fun skill => str_in skill (map toLowerCase userSkills))
                         (map toLowerCase l))))
      (of_nat (List.length (map toLowerCase l)))
  = Num (share userSkills l).
Proof.
  intros Hl. rewrite filter_map_length, length_map.
  rewrite of_nat_div; [reflexivity|].
  destruct l; [congruence | cbn; lia].
Qed.

(** The value of [calculateSkillMatch] when at least one skill is
    required. *)
Lemma skill_value (userSkills requiredSkills : list string)
    (optionalSkills : option (list string)) :
  requiredSkills <> [] ->
  exists q,
    calculateSkillMatch (Some userSkills) (Some requiredSkills) optionalSkills
    = Num q
    /\ (q == 70 * share userSkills requiredSkills
            + 30 * optional_share userSkills optionalSkills)%Q.
Proof.
  intros Hreq.
  destruct (share_bounds userSkills requiredSkills Hreq) as [Hr0 Hr1].
  destruct (optional_share_bounds userSkills optionalSkills) as [Ho0 Ho1].
  unfold calculateSkillMatch.
  rewrite (skill_parts userSkills requiredSkills Hreq).
  set (r := share userSkills requiredSkills) in *.
  set (o := optional_share userSkills optionalSkills) in *.
  assert (Hopt :
    exists x,
      (if Nat.ltb 0 (List.length
                       (map toLowerCase
                            match optionalSkills with Some l => l | None => [] end))
       then mul (div (of_nat (List.length
                      (filter (fun skill =>
                                 str_in skill (map toLowerCase userSkills))
                              (map toLowerCase
                                   match optionalSkills with
                                   | Some l => l | None => [] end))))
                     (of_nat (List.length
                                (map toLowerCase
                                     match optionalSkills with
                                     | Some l => l | None => [] end))))
                (n 30)
       else n 0) = Num x /\ (x == 30 * o)%Q).
  { subst o. destruct optionalSkills as [[|skill l]|].
    - exists (inject_Z 0). split; [reflexivity|].
      cbn [optional_share]. change (inject_Z 0) with 0%Q. ring.
    - rewrite (skill_parts userSkills (skill :: l)) by discriminate.
      exists (share userSkills (skill :: l) * inject_Z 30)%Q.
      split; [reflexivity|]. cbn [optional_share].
      change (inject_Z 30) with 30%Q. ring.
    - exists (inject_Z 0). split; [reflexivity|].
      cbn [optional_share]. change (inject_Z 0) with 0%Q. ring. }
  destruct Hopt as (x & -> & Ex).
  cbn [mul add n].
  change (inject_Z 70) with 70%Q.
  destruct (min_100 (r * 70 + x)) as (q & Hq & Eq).
  { rewrite Ex. lra. }
  exists q. split; [exact Hq|].
  rewrite Eq, Ex. ring.
Qed.



End Ranges.

(** ** Experience and availability *)

(** Case analysis on the comparisons of [s] with the keys of a table, each
    key being closed by [tac]. *)
Tactic Notation "by_table" constr(s) tactic3(tac) :=
  repeat (match goal with
          | |- context [String.eqb ?k s] => destruct (String.eqb k s)
          end; [solve [tac]|]).

Section Levels.

Lemma n_inj (a b : Z) : n a = n b -> a = b.
Proof. unfold n, inject_Z. now intros [= ->]. Qed.

(** X2. On experience and difficulty strings that are not inherited member
    names, [calculateExperienceMatch] is 100 minus 25 per level of
    distance between the two levels. The distance is at most 3, so the
    score is one of 100, 75, 50 and 25: the floor at 0 is never reached,
    and 100 is scored exactly when the two levels are equal. *)
Theorem calculateExperienceMatch_distance
    (userExperience projectDifficulty : option string) :
  plain_key userExperience = true -> plain_key projectDifficulty = true ->
  exists d : Z,
    d = Z.abs (experience_level userExperience
               - difficulty_level projectDifficulty)
    /\ (0 <= d <= 3)%Z
    /\ calculateExperienceMatch userExperience projectDifficulty
       = n (100 - 25 * d)
    /\ (calculateExperienceMatch userExperience projectDifficulty = n 100
        <-> experience_level userExperience
            = difficulty_level projectDifficulty).
Proof.
  intros Hu Hp.
  pose proof (experience_level_range userExperience) as Ru.
  pose proof (difficulty_level_range projectDifficulty) as Rp.
  rewrite (calculateExperienceMatch_plain_keys _ _ Hu Hp).
  set (u := experience_level userExperience) in *.
  set (p := difficulty_level projectDifficulty) in *.
  exists (Z.abs (u - p)). split; [reflexivity|].
  split; [lia|]. split.
  - f_equal. lia.
  - split.
    + intros E. apply n_inj in E. lia.
    + intros ->. f_equal. lia.
Qed.

Lemma calculateExperienceMatch_distance_witness :
  exists d : Z,
    d = Z.abs (experience_level (Some "Expert")
               - difficulty_level (Some "Beginner"))
    /\ (0 <= d <= 3)%Z
    /\ calculateExperienceMatch (Some "Expert") (Some "Beginner")
       = n (100 - 25 * d)
    /\ (calculateExperienceMatch (Some "Expert") (Some "Beginner") = n 100
        <-> experience_level (Some "Expert")
            = difficulty_level (Some "Beginner")).
Proof.
  apply (calculateExperienceMatch_distance (Some "Expert") (Some "Beginner"));
    reflexivity.
Defined.

(** The availability table, on keys that are not inherited member names. *)
Lemma availability_lookup (userAvailability projectDuration : option string) :
  plain_key userAvailability = true ->
  calculateAvailabilityMatch userAvailability projectDuration
  = Number (n match userAvailability with
              | Some s =>
                  if String.eqb "Full-time" s then 100
                  else if String.eqb "Part-time" s then 75
                  else if String.eqb "Weekends" s then 50
                  else if String.eqb "Flexible" s then 85
                  else 50
              | None => 50
              end).
Proof.
  destruct userAvailability as [s|]; [|reflexivity].
  unfold plain_key, calculateAvailabilityMatch, get_opt, get.
  cbn [own availabilityMap].
  intros H. apply negb_true_iff in H.
  by_table s reflexivity.
  cbn [own]. rewrite H. reflexivity.
Qed.

End Levels.

(** ** Location *)

Section Location.

Lemma split_aux_nonempty (sep : ascii) (cur s : string) :
  split_aux sep cur s <> [].
Proof.
  revert cur. induction s as [|c s IH]; intros cur; cbn; [discriminate|].
  destruct (Ascii.eqb c sep); [discriminate | apply IH].
Qed.

Lemma parts_nonempty (location : string) : List.length (parts location) <> 0%nat.
Proof.
  unfold parts, split. rewrite length_map.
  pose proof (split_aux_nonempty "," EmptyString location) as H.
  destruct (split_aux _ _ _); [congruence | cbn; lia].
Qed.

Lemma of_nat_le (a b : nat) : le (of_nat a) (of_nat b) = Nat.leb a b.
Proof.
  unfold le, of_nat, Qleb.
  destruct (Nat.leb a b) eqn:E.
  - apply Qle_bool_iff. rewrite <- Zle_Qle. apply Nat.leb_le in E. lia.
  - destruct (Qle_bool _ _) eqn:Q; [|reflexivity].
    apply Qle_bool_iff in Q. rewrite <- Zle_Qle in Q.
    apply Nat.leb_gt in E. lia.
Qed.

Lemma of_nat_max (a b : nat) : max (of_nat a) (of_nat b) = of_nat (Nat.max a b).
Proof.
  unfold max. change (Num (inject_Z (Z.of_nat a))) with (of_nat a).
  change (Num (inject_Z (Z.of_nat b))) with (of_nat b).
  cbn match. rewrite of_nat_le.
  destruct (Nat.leb a b) eqn:E.
  - apply Nat.leb_le in E. now rewrite Nat.max_r.
  - apply Nat.leb_gt in E. rewrite Nat.max_l; [reflexivity | lia].
Qed.

(** The last branch of [calculateLocationMatch]: the share of the user's
    components found in the project's, out of the longer list. *)
Lemma location_parts (userLocation projectLocation : string) :
  exists q,
    min (n 100)
        (mul (div (of_nat (List.length
                             (filter (fun part =>
                                        str_in part (parts projectLocation))
                                     (parts userLocation))))
                  (max (of_nat (List.length (parts userLocation)))
                       (of_nat (List.length (parts projectLocation)))))
             (n 100))
    = Num q
    /\ (q == 100 * ratio (List.length
                            (filter (fun part =>
                                       str_in part (parts projectLocation))
                                    (parts userLocation)))
                         (Nat.max (List.length (parts userLocation))
                                  (List.length (parts projectLocation))))%Q
    /\ (0 <= q /\ q <= 100)%Q.
Proof.
  pose proof (parts_nonempty userLocation) as Hu.
  pose proof (filter_length_le (fun part => str_in part (parts projectLocation))
                (parts userLocation)) as Hc.
  set (c := List.length (filter _ _)) in *.
  set (lu := List.length (parts userLocation)) in *.
  set (lp := List.length (parts projectLocation)) in *.
  rewrite of_nat_max, of_nat_div by lia.
  destruct (ratio_bounds c (Nat.max lu lp)) as [H0 H1]; [lia | lia |].
  cbn [mul n]. change (inject_Z 100) with 100%Q.
  destruct (min_100 (ratio c (Nat.max lu lp) * 100)) as (q & Hq & Eq);
    [lra|].
  exists q. split; [exact Hq|].
  split; [rewrite Eq; ring|].
  rewrite Eq. split; lra.
Qed.

(** The result is always a rational between 0 and 100. *)
Lemma location_number (userLocation projectLocation : option string) :
  exists q,
    calculateLocationMatch userLocation projectLocation = Num q
    /\ (0 <= q /\ q <= 100)%Q.
Proof.
  assert (H50 : exists q, n 50 = Num q /\ (0 <= q /\ q <= 100)%Q).
  { exists (inject_Z 50). split; [reflexivity|].
    change (inject_Z 50) with 50%Q. split; lra. }
  destruct userLocation as [u|]; destruct projectLocation as [p|];
    cbn [calculateLocationMatch]; try exact H50.
  destruct (negb (truthy_str (Some u)) || negb (truthy_str (Some p)));
    [exact H50|].
  destruct (String.eqb (toLowerCase u) (toLowerCase p)).
  - exists (inject_Z 100). split; [reflexivity|].
    change (inject_Z 100) with 100%Q. split; lra.
  - destruct (location_parts u p) as (q & Hq & _ & Hr).
    exists q. split; [exact Hq | exact Hr].
Qed.

(** X3. [calculateLocationMatch] never fails to give a number: for every
    pair of arguments, present or not, empty or not, the result is a
    rational between 0 and 100, never [NaN] and never infinite (a split
    string has at least one component, so the division is defined). It
    is exactly 50 as soon as one of the two locations is missing or
    empty. *)
Theorem calculateLocationMatch_range
    (userLocation projectLocation : option string) :
  (exists q,
     calculateLocationMatch userLocation projectLocation = Num q
     /\ (0 <= q /\ q <= 100)%Q)
  /\ is_NaN (calculateLocationMatch userLocation projectLocation) = false
  /\ (truthy_str userLocation && truthy_str projectLocation = false ->
      calculateLocationMatch userLocation projectLocation = n 50).
Proof.
  destruct (location_number userLocation projectLocation) as (q & Hq & Hr).
  split; [exists q; split; assumption|].
  split; [rewrite Hq; reflexivity|].
  destruct userLocation as [[|cu u]|]; destruct projectLocation as [[|cp p]|];
    try reflexivity.
  cbn [truthy_str andb]. discriminate.
Qed.

Lemma str_in_In (s : string) (l : list string) : In s l -> str_in s l = true.
Proof.
  intros H. unfold str_in. apply existsb_exists.
  exists s. split; [exact H | apply String.eqb_refl].
Qed.

Lemma filter_all {A} (p : A -> bool) (l : list A) :
  (forall x, In x l -> p x = true) -> filter p l = l.
Proof.
  induction l as [|x l IH]; intros H; cbn; [reflexivity|].
  rewrite (H x (or_introl eq_refl)). f_equal.
  apply IH. intros y Hy. apply H. now right.
Qed.

(** X4. Two non-empty locations with the same comma-separated components,
    compared after trimming and without regard to case, score 100, even
    when the two strings differ in spacing or in case. *)
Theorem calculateLocationMatch_same_parts (userLocation projectLocation : string) :
  userLocation <> EmptyString -> projectLocation <> EmptyString ->
  parts userLocation = parts projectLocation ->
  calculateLocationMatch (Some userLocation) (Some projectLocation) = n 100.
Proof.
  intros Hu Hp E. cbn [calculateLocationMatch].
  destruct userLocation as [|cu u]; [congruence|].
  destruct projectLocation as [|cp p]; [congruence|].
  cbn [truthy_str negb orb].
  destruct (String.eqb _ _); [reflexivity|].
  fold (parts (String cu u)). fold (parts (String cp p)).
  rewrite <- E.
  rewrite filter_all by (intros x Hx; now apply str_in_In).
  rewrite of_nat_max, Nat.max_id.
  rewrite of_nat_div by apply parts_nonempty.
  assert (Q : Qle_bool (inject_Z 100)
                 (ratio (List.length (parts (String cu u)))
                        (List.length (parts (String cu u))) * inject_Z 100)
               = true).
  { apply Qle_bool_iff.
    rewrite (ratio_full _ (parts_nonempty (String cu u))).
    change (inject_Z 100) with 100%Q. lra. }
  unfold n, min, le, Qleb. cbn [mul]. rewrite Q. reflexivity.
Qed.

Lemma calculateLocationMatch_same_parts_witness :
  calculateLocationMatch (Some "Paris, France") (Some "paris,FRANCE ") = n 100.
Proof.
  apply (calculateLocationMatch_same_parts "Paris, France" "paris,FRANCE ");
    [discriminate | discriminate | reflexivity].
Defined.

End Location.

(** ** Interests *)

Section Interests.

Lemma interest_tags (score : Q) (userInterests projectTags : list string) :
  (0 <= score /\ score <= 60)%Q ->
  projectTags <> [] ->
  exists q,
    min (n 100)
        (add (Num score)
             (mul (div (of_nat (List.length
                                  (filter (fun tag =>
                                             existsb
                                               (fun interest =>
                                                  str_includes
                                                    (toLowerCase interest)
                                                    (toLowerCase tag))
                                               userInterests)
                                          projectTags)))
                       (of_nat (List.length projectTags)))
                  (n 40)))
    = Num q
    /\ (0 <= q /\ q <= 100)%Q.
Proof.
  intros Hs Ht.
  assert (Hl : List.length projectTags <> 0%nat)
    by (destruct projectTags; [congruence | cbn; lia]).
  rewrite of_nat_div by exact Hl.
  destruct (ratio_bounds _ _ (filter_length_le
              (fun tag =>
                 existsb (fun interest =>
                            str_includes (toLowerCase interest)
                                         (toLowerCase tag)) userInterests)
              projectTags) Hl) as [H0 H1].
  set (r := ratio _ _) in *.
  cbn [mul add n]. change (inject_Z 40) with 40%Q.
  destruct (min_100 (score + r * 40)) as (q & Hq & Eq); [lra|].
  exists q. split; [exact Hq|]. rewrite Eq. split; lra.
Qed.

(** The two outcomes of [calculateInterestMatch]: a rational in [0,100],
    or [NaN] for an empty tag list met by a user with project types and
    interests. *)
Lemma interest_cases
    (userPreferences : option Preferences) (projectCategory : option string)
    (projectTags : option (list string)) :
  (exists q,
     calculateInterestMatch userPreferences projectCategory projectTags
     = Num q
     /\ (0 <= q /\ q <= 100)%Q
     /\ ~ (exists prefs types userInterests,
             userPreferences = Some prefs
             /\ projectTypes prefs = Some types
             /\ interests prefs = Some userInterests
             /\ projectTags = Some []))
  \/ (calculateInterestMatch userPreferences projectCategory projectTags
      = NaN
      /\ exists prefs types userInterests,
           userPreferences = Some prefs
           /\ projectTypes prefs = Some types
           /\ interests prefs = Some userInterests
           /\ projectTags = Some []).
Proof.
  assert (H50 : exists q, n 50 = Num q /\ (0 <= q /\ q <= 100)%Q).
  { exists (inject_Z 50). split; [reflexivity|].
    change (inject_Z 50) with 50%Q. split; lra. }
  assert (Hcat :
    forall b : bool,
      exists score,
        (if b then add (n 0) (n 60) else n 0) = Num score
        /\ (0 <= score /\ score <= 60)%Q).
  { intros [|].
    - exists (inject_Z 0 + inject_Z 60)%Q. split; [reflexivity|].
      change (inject_Z 0) with 0%Q. change (inject_Z 60) with 60%Q.
      split; lra.
    - exists (inject_Z 0). split; [reflexivity|].
      change (inject_Z 0) with 0%Q. split; lra. }
  destruct userPreferences as [prefs|]; cbn [calculateInterestMatch].
  2:{ left. destruct H50 as (q & Hq & Hr). exists q.
      split; [exact Hq|]. split; [exact Hr|].
      intros (? & ? & ? & [=] & _). }
  destruct (projectTypes prefs) as [types|] eqn:Etypes.
  2:{ left. destruct H50 as (q & Hq & Hr). exists q.
      split; [exact Hq|]. split; [exact Hr|].
      intros (? & ? & ? & [= <-] & E & _). congruence. }
  destruct (Hcat match projectCategory with
                 | Some c => str_in c types
                 | None => false
                 end) as (score & -> & Hscore).
  assert (Hplain :
    exists q, min (n 100) (Num score) = Num q /\ (0 <= q /\ q <= 100)%Q).
  { destruct (min_100 score) as (q & Hq & Eq); [lra|].
    exists q. split; [exact Hq|]. rewrite Eq. split; lra. }
  destruct projectTags as [[|tag tags]|]; destruct (interests prefs)
    as [userInterests|] eqn:Eint.
  - (* the empty tag list, with interests: 0 / 0 *)
    right. split; [reflexivity|].
    exists prefs, types, userInterests. repeat split; assumption.
  - left. destruct Hplain as (q & Hq & Hr). exists q.
    split; [exact Hq|]. split; [exact Hr|].
    intros (? & ? & ? & [= <-] & _ & E & _). congruence.
  - left.
    destruct (interest_tags score userInterests (tag :: tags) Hscore)
      as (q & Hq & Hr); [discriminate|].
    exists q. split; [exact Hq|]. split; [exact Hr|].
    intros (? & ? & ? & _ & _ & _ & [=]).
  - left. destruct Hplain as (q & Hq & Hr). exists q.
    split; [exact Hq|]. split; [exact Hr|].
    intros (? & ? & ? & _ & _ & _ & [=]).
  - left. destruct Hplain as (q & Hq & Hr). exists q.
    split; [exact Hq|]. split; [exact Hr|].
    intros (? & ? & ? & _ & _ & _ & [=]).
  - left. destruct Hplain as (q & Hq & Hr). exists q.
    split; [exact Hq|]. split; [exact Hr|].
    intros (? & ? & ? & _ & _ & _ & [=]).
Qed.

(** X5. [calculateInterestMatch] is [NaN] in exactly one situation: the
    user states project types and interests and the project has a tag
    list that is present and empty (zero matching tags over zero tags).
    In every other situation it is a rational between 0 and 100. *)
Theorem calculateInterestMatch_range
    (userPreferences : option Preferences) (projectCategory : option string)
    (projectTags : option (list string)) :
  (is_NaN (calculateInterestMatch userPreferences projectCategory projectTags)
   = true
   <-> exists prefs types userInterests,
         userPreferences = Some prefs
         /\ projectTypes prefs = Some types
         /\ interests prefs = Some userInterests
         /\ projectTags = Some [])
  /\ (is_NaN (calculateInterestMatch userPreferences projectCategory
                projectTags) = false ->
      exists q,
        calculateInterestMatch userPreferences projectCategory projectTags
        = Num q
        /\ (0 <= q /\ q <= 100)%Q).
Proof.
  destruct (interest_cases userPreferences projectCategory projectTags)
    as [(q & Hq & Hr & Hno) | (Hnan & Hempty)].
  - (* a number *)
    rewrite Hq. split.
    + split; [discriminate | intros H; destruct (Hno H)].
    + intros _. exists q. split; [reflexivity | exact Hr].
  - (* 0 / 0 *)
    rewrite Hnan. split.
    + split; [intros _; exact Hempty | reflexivity].
    + discriminate.
Qed.

End Interests.
(** ** The five sub-scores together *)

Section FiveFactors.

Lemma percent_Z (z : Z) : (0 <= z <= 100)%Z -> percent (inject_Z z).
Proof.
  intros [H0 H1]. unfold percent.
  change 0%Q with (inject_Z 0). change 100%Q with (inject_Z 100).
  rewrite <- !Zle_Qle. split; assumption.
Qed.

Lemma skill_number (userSkills requiredSkills optionalSkills
                    : option (list string)) :
  userSkills = None \/ requiredSkills <> Some [] ->
  exists q,
    calculateSkillMatch userSkills requiredSkills optionalSkills = Num q
    /\ percent q.
Proof.
  intros H.
  assert (H0 : exists q, n 0 = Num q /\ percent q).
  { exists (inject_Z 0). split; [reflexivity | apply percent_Z; lia]. }
  destruct userSkills as [userSkills|]; [|exact H0].
  destruct requiredSkills as [[|skill l]|]; [|clear H|exact H0].
  - destruct H as [H|H]; [discriminate | congruence].
  - destruct (skill_value userSkills (skill :: l) optionalSkills)
      as (q & Hq & Eq); [discriminate|].
    destruct (share_bounds userSkills (skill :: l)) as [Hr0 Hr1];
      [discriminate|].
    destruct (optional_share_bounds userSkills optionalSkills) as [Ho0 Ho1].
    exists q. split; [exact Hq|]. unfold percent. rewrite Eq. split; lra.
Qed.

Lemma experience_number (userExperience projectDifficulty : option string) :
  plain_key userExperience = true -> plain_key projectDifficulty = true ->
  exists q,
    calculateExperienceMatch userExperience projectDifficulty = Num q
    /\ (25 <= q /\ q <= 100)%Q.
Proof.
  intros Hu Hp.
  pose proof (experience_level_range userExperience) as Ru.
  pose proof (difficulty_level_range projectDifficulty) as Rp.
  rewrite (calculateExperienceMatch_plain_keys _ _ Hu Hp).
  eexists. split; [reflexivity|].
  change 25%Q with (inject_Z 25). change 100%Q with (inject_Z 100).
  rewrite <- !Zle_Qle. lia.
Qed.

Lemma availability_number (userAvailability projectDuration : option string) :
  plain_key userAvailability = true ->
  exists q,
    calculateAvailabilityMatch userAvailability projectDuration
    = Number (Num q)
    /\ (50 <= q /\ q <= 100)%Q.
Proof.
  intros H. rewrite (availability_lookup _ _ H).
  eexists. split; [reflexivity|].
  change 50%Q with (inject_Z 50). change 100%Q with (inject_Z 100).
  rewrite <- !Zle_Qle.
  destruct userAvailability as [s|]; [|lia].
  by_table s lia. lia.
Qed.

(** When the degenerate inputs are excluded, the five sub-scores are
    numbers in range, with an experience score of at least 25 and an
    availability score of at least 50. *)
Lemma factors_numeric (user : User.doc) (project : Project.doc)
    (profile : User.profile_t) :
  User.profile user = Some profile ->
  User.skills profile = None \/ Project.requiredSkills project <> Some [] ->
  plain_key (User.experience profile) = true ->
  plain_key (Project.difficulty project) = true ->
  plain_key (stated_availability user) = true ->
  is_NaN (calculateInterestMatch (User.preferences user)
            (Project.category project) (Project.tags project)) = false ->
  exists s e a l i,
    calculateFactors user project = Ok (numeric_factors s e a l i)
    /\ calculateSkillMatch (User.skills profile)
         (Project.requiredSkills project) (Project.optionalSkills project)
       = Num s
    /\ percent s
    /\ (25 <= e /\ e <= 100)%Q
    /\ (50 <= a /\ a <= 100)%Q
    /\ percent l
    /\ percent i.
Proof.
  intros Hprofile Hskills Hue Hpd Hua Hint.
  destruct (skill_number (User.skills profile)
              (Project.requiredSkills project)
              (Project.optionalSkills project) Hskills) as (s & Hs & Ps).
  destruct (experience_number _ _ Hue Hpd) as (e & He & Pe).
  destruct (availability_number _ (Project.estimatedDuration project) Hua)
    as (a & Ha & Pa).
  destruct (location_number (User.location profile)
              (Project.location project)) as (l & Hl & Pl).
  destruct (interest_cases (User.preferences user) (Project.category project)
              (Project.tags project))
    as [(i & Hi & Pi & _) | (Hnan & _)];
    [|rewrite Hnan in Hint; discriminate].
  exists s, e, a, l, i. split.
  - unfold calculateFactors. rewrite Hprofile.
    fold (stated_availability user).
    rewrite Hs, He, Ha, Hl, Hi. reflexivity.
  - repeat (split; [assumption|]). exact Pi.
Qed.

(** X6. Outside four degenerate inputs the factors of a pair are always
    well formed. For a user with a profile, unless the project's
    required-skills list is present and empty, an experience, difficulty or
    availability string is the name of an inherited member, or the interest
    score is [NaN]: the five sub-scores are numbers in [0,100]
    (experience at least 25, availability at least 50), the overall score
    is an integer in [0,100], and the document built from them passes the
    validators of the schema, so that saving it cannot fail. *)
Theorem calculateFactors_well_formed (user : User.doc) (project : Project.doc)
    (profile : User.profile_t) :
  User.profile user = Some profile ->
  User.skills profile = None \/ Project.requiredSkills project <> Some [] ->
  plain_key (User.experience profile) = true ->
  plain_key (Project.difficulty project) = true ->
  plain_key (stated_availability user) = true ->
  is_NaN (calculateInterestMatch (User.preferences user)
            (Project.category project) (Project.tags project)) = false ->
  exists s e a l i,
    calculateFactors user project = Ok (numeric_factors s e a l i)
    /\ (percent s /\ percent e /\ percent a /\ percent l /\ percent i)
    /\ (25 <= e /\ 50 <= a)%Q
    /\ (exists z, calculateOverallMatch (numeric_factors s e a l i) = n z
                  /\ (0 <= z <= 100)%Z)
    /\ (forall w uid,
          validate (document w uid (Project._id project)
                             (numeric_factors s e a l i)) = true).
Proof.
  intros Hprofile Hskills Hue Hpd Hua Hint.
  destruct (factors_numeric user project profile Hprofile Hskills Hue Hpd
              Hua Hint)
    as (s & e & a & l & i & Hf & _ & Ps & Pe & Pa & Pl & Pi).
  assert (Pe' : percent e) by (unfold percent; split; lra).
  assert (Pa' : percent a) by (unfold percent; split; lra).
  exists s, e, a, l, i.
  split; [exact Hf|].
  split; [repeat (split; [assumption|]); exact Pi|].
  split; [split; lra|]. split.
  - destruct (overall_numeric s e a l i Ps Pe' Pa' Pl Pi) as [Hz Rz].
    eexists. split; [exact Hz | exact Rz].
  - intros w uid. now apply validate_numeric.
Qed.

Lemma calculateFactors_well_formed_witness :
  exists s e a l i,
    calculateFactors Samples.expert Samples.python_advanced
    = Ok (numeric_factors s e a l i)
    /\ (percent s /\ percent e /\ percent a /\ percent l /\ percent i)
    /\ (25 <= e /\ 50 <= a)%Q
    /\ (exists z, calculateOverallMatch (numeric_factors s e a l i) = n z
                  /\ (0 <= z <= 100)%Z)
    /\ (forall w uid,
          validate (document w uid (Project._id Samples.python_advanced)
                             (numeric_factors s e a l i)) = true).
Proof.
  apply (calculateFactors_well_formed Samples.expert Samples.python_advanced
           {| User.skills := Some ["Go"]; User.experience := Some "Expert";
              User.location := None |});
    try reflexivity.
  right. discriminate.
Defined.



Lemma add_NaN_r (a : number) : add a NaN = NaN.
Proof. destruct a; reflexivity. Qed.

(** An availability sub-score that is an object makes the total [NaN]. *)
Lemma overall_object (factors : Factors) :
  availabilityMatch factors = Object ->
  calculateOverallMatch factors = NaN.
Proof.
  intros H. unfold calculateOverallMatch, entries. cbn [fold_left].
  rewrite H.
  change (to_number (or Object (Number (n 0)))) with NaN.
  cbn [mul]. rewrite add_NaN_r. reflexivity.
Qed.

Lemma availability_inherited (key : string) (projectDuration : option string) :
  str_in key object_prototype_keys = true ->
  calculateAvailabilityMatch (Some key) projectDuration = Object.
Proof.
  intros H. apply existsb_exists in H as (k & Hin & Hk).
  apply String.eqb_eq in Hk. subst k.
  repeat (destruct Hin as [<-|Hin]; [reflexivity|]). destruct Hin.
Qed.

(** X8. A user whose stated availability is the name of an inherited
    member ("constructor", "toString", ...) is never matched to any
    project: the lookup in the availability table yields a function, the
    overall score is [NaN], the test against 30 fails, and every pass over
    such a user returns normally and leaves the whole state as it was,
    without any error or log entry. *)
Theorem inherited_availability_never_matched
    (type : string) (uid : ObjectId) (user : User.doc) (project : Project.doc)
    (profile : User.profile_t) (key : string) (w : World) :
  User.profile user = Some profile ->
  stated_availability user = Some key ->
  str_in key object_prototype_keys = true ->
  (exists factors,
     calculateFactors user project = Ok factors
     /\ calculateOverallMatch factors = NaN)
  /\ match_pair type uid user project w = (Ok tt, w).
Proof.
  intros Hprofile Hkey Hin.
  assert (Hf : exists factors,
             calculateFactors user project = Ok factors
             /\ calculateOverallMatch factors = NaN).
  { unfold calculateFactors. rewrite Hprofile.
    fold (stated_availability user). rewrite Hkey.
    eexists. split; [reflexivity|].
    apply overall_object. cbn [availabilityMatch].
    now apply availability_inherited. }
  split; [exact Hf|].
  destruct Hf as (factors & Hf & Hnan).
  rewrite match_pair_cases, Hf, Hnan.
  destruct (find _ (matches w)); reflexivity.
Qed.

Lemma inherited_availability_never_matched_witness :
  (exists factors,
     calculateFactors
       (Samples.user "u4" ["python"] "Senior Level"
          (Some {| projectTypes := None; interests := None;
                   availability := Some "constructor" |}))
       Samples.python_advanced = Ok factors
     /\ calculateOverallMatch factors = NaN)
  /\ match_pair "user" "u4"
       (Samples.user "u4" ["python"] "Senior Level"
          (Some {| projectTypes := None; interests := None;
                   availability := Some "constructor" |}))
       Samples.python_advanced (initial true)
     = (Ok tt, initial true).
Proof.
  apply (inherited_availability_never_matched "user" "u4"
           (Samples.user "u4" ["python"] "Senior Level"
              (Some {| projectTypes := None; interests := None;
                       availability := Some "constructor" |}))
           Samples.python_advanced
           {| User.skills := Some ["python"];
              User.experience := Some "Senior Level";
              User.location := None |}
           "constructor" (initial true));
    reflexivity.
Defined.

(** X9. The overall score is monotone: raising any of the five numeric
    sub-scores, the others being kept or raised too, never lowers the
    overall score. *)
Theorem calculateOverallMatch_monotone (s e a l i s' e' a' l' i' : Q) :
  (s <= s')%Q -> (e <= e')%Q -> (a <= a')%Q -> (l <= l')%Q -> (i <= i')%Q ->
  le (calculateOverallMatch (numeric_factors s e a l i))
     (calculateOverallMatch (numeric_factors s' e' a' l' i')) = true.
Proof.
  intros Hs He Ha Hl Hi.
  destruct (overall_total s e a l i) as (t & -> & Et).
  destruct (overall_total s' e' a' l' i') as (t' & -> & Et').
  unfold le, Qleb. apply Qle_bool_iff. rewrite <- Zle_Qle.
  unfold round_half_up. apply Qfloor_resp_le.
  rewrite Et, Et'. unfold weighted_sum. lra.
Qed.

Lemma calculateOverallMatch_monotone_witness :
  le (calculateOverallMatch (numeric_factors 0 50 50 50 50))
     (calculateOverallMatch (numeric_factors 70 50 75 50 50)) = true.
Proof.
  apply (calculateOverallMatch_monotone 0 50 50 50 50 70 50 75 50 50); lra.
Defined.

End FiveFactors.
(** ** Match reasons *)

Section Reasons.

Lemma gt_n (z k : Z) : gt (n z) (n k) = (k <? z)%Z.
Proof.
  unfold gt, lt, le, n, Qleb. apply eq_true_iff_eq.
  rewrite negb_true_iff, Z.ltb_lt, <- not_true_iff_false, Qle_bool_iff.
  rewrite <- Zle_Qle. lia.
Qed.

(** Each of the four fixed reasons is listed exactly when its sub-score
    exceeds its threshold. *)
Lemma reasons_membership (factors : Factors) :
  (In experience_reason (generateMatchReasons factors)
   <-> gt (to_number (experienceMatch factors)) (n 75) = true)
  /\ (In availability_reason (generateMatchReasons factors)
      <-> gt (to_number (availabilityMatch factors)) (n 80) = true)
  /\ (In location_reason (generateMatchReasons factors)
      <-> gt (to_number (locationMatch factors)) (n 90) = true)
  /\ (In interest_reason (generateMatchReasons factors)
      <-> gt (to_number (interestMatch factors)) (n 70) = true)
  /\ (List.length (generateMatchReasons factors) <= 5)%nat.
Proof.
  unfold generateMatchReasons, experience_reason, availability_reason,
    location_reason, interest_reason.
  destruct (gt (to_number (skillMatch factors)) (n 80));
    destruct (gt (to_number (experienceMatch factors)) (n 75));
    destruct (gt (to_number (availabilityMatch factors)) (n 80));
    destruct (gt (to_number (locationMatch factors)) (n 90));
    destruct (gt (to_number (interestMatch factors)) (n 70));
    cbn [app In List.length append];
    repeat split; intros; try discriminate; try lia;
    try (repeat match goal with
                | H : _ \/ _ |- _ => destruct H
                | H : False |- _ => destruct H
                end; discriminate);
    auto 10.
Qed.

(** X10. The experience reason is given exactly to users whose level
    equals the project's level, and the availability reason exactly to
    users who state "Full-time" or "Flexible" (the strings being plain
    keys): a one-level gap scores 75 and "Part-time" scores 75, which do
    not exceed the thresholds 75 and 80. No list of reasons has more than
    five entries. *)
Theorem reasons_follow_levels (user : User.doc) (project : Project.doc)
    (profile : User.profile_t) (factors : Factors) :
  User.profile user = Some profile ->
  calculateFactors user project = Ok factors ->
  plain_key (User.experience profile) = true ->
  plain_key (Project.difficulty project) = true ->
  plain_key (stated_availability user) = true ->
  (In experience_reason (generateMatchReasons factors)
   <-> experience_level (User.experience profile)
       = difficulty_level (Project.difficulty project))
  /\ (In availability_reason (generateMatchReasons factors)
      <-> stated_availability user = Some "Full-time"
          \/ stated_availability user = Some "Flexible")
  /\ (List.length (generateMatchReasons factors) <= 5)%nat.
Proof.
  intros Hprofile Hf Hue Hpd Hua.
  destruct (reasons_membership factors) as (He & Ha & _ & _ & Hlen).
  unfold calculateFactors in Hf. rewrite Hprofile in Hf.
  fold (stated_availability user) in Hf. injection Hf as <-.
  cbn [experienceMatch availabilityMatch] in He, Ha.
  split; [|split; [|exact Hlen]].
  - (* experience: 100 - 25 d > 75 exactly when d = 0 *)
    rewrite He. cbn [to_number].
    rewrite (calculateExperienceMatch_plain_keys _ _ Hue Hpd), gt_n.
    pose proof (experience_level_range (User.experience profile)).
    pose proof (difficulty_level_range (Project.difficulty project)).
    rewrite Z.ltb_lt. lia.
  - (* availability: only 100 and 85 exceed 80 *)
    rewrite Ha.
    rewrite (availability_lookup _ (Project.estimatedDuration project) Hua).
    cbn [to_number]. rewrite gt_n, Z.ltb_lt.
    destruct (stated_availability user) as [s|];
      [|split; [lia | intros [H|H]; discriminate]].
    destruct (String.eqb "Full-time" s) eqn:E1.
    { apply String.eqb_eq in E1. subst s. split; [auto | lia]. }
    destruct (String.eqb "Part-time" s) eqn:E2.
    { apply String.eqb_eq in E2. subst s.
      split; [lia | intros [H|H]; discriminate]. }
    destruct (String.eqb "Weekends" s) eqn:E3.
    { apply String.eqb_eq in E3. subst s.
      split; [lia | intros [H|H]; discriminate]. }
    destruct (String.eqb "Flexible" s) eqn:E4.
    { apply String.eqb_eq in E4. subst s. split; [auto | lia]. }
    split; [lia|].
    intros [[= ->]|[= ->]];
      [rewrite String.eqb_refl in E1 | rewrite String.eqb_refl in E4];
      discriminate.
Qed.

Lemma reasons_follow_levels_witness :
  (In experience_reason
      (generateMatchReasons
         (numeric_factors 0 75 75 50 50))
   <-> experience_level (Some "Expert") = difficulty_level (Some "Advanced"))
  /\ (In availability_reason
         (generateMatchReasons (numeric_factors 0 75 75 50 50))
      <-> Some "Part-time" = Some "Full-time"
          \/ Some "Part-time" = Some "Flexible")
  /\ (List.length (generateMatchReasons (numeric_factors 0 75 75 50 50))
      <= 5)%nat.
Proof.
  apply (reasons_follow_levels Samples.expert Samples.python_advanced
           {| User.skills := Some ["Go"]; User.experience := Some "Expert";
              User.location := None |}
           (numeric_factors 0 75 75 50 50));
    reflexivity.
Defined.

End Reasons.
(** ** How the requests make the state evolve *)

Section Evolution.

Variable R : World -> World -> Prop.
Hypothesis R_refl : forall w, R w w.
Hypothesis R_trans : forall w1 w2 w3, R w1 w2 -> R w2 w3 -> R w1 w3.

Lemma evolves_bind {A B} (m : M A) (k : A -> M B) :
  evolves R m -> (forall a, evolves R (k a)) -> evolves R (bind m k).
Proof.
  intros Hm Hk w. unfold bind. specialize (Hm w).
  destruct (m w) as [[a|e] w1]; cbn [snd] in *; [|exact Hm].
  exact (R_trans _ _ _ Hm (Hk a w1)).
Qed.

Lemma evolves_try_catch {A} (m : M A) (h : exn -> M A) :
  evolves R m -> (forall e, evolves R (h e)) -> evolves R (try_catch m h).
Proof.
  intros Hm Hh w. unfold try_catch. specialize (Hm w).
  destruct (m w) as [[a|e] w1]; cbn [snd] in *; [exact Hm|].
  exact (R_trans _ _ _ Hm (Hh e w1)).
Qed.

Lemma evolves_for_of {A} (l : list A) (body : A -> M unit) :
  (forall x, evolves R (body x)) -> evolves R (for_of l body).
Proof.
  intros Hb. induction l as [|x l IH]; cbn [for_of].
  - intros w. apply R_refl.
  - apply evolves_bind; [apply Hb | intros _; exact IH].
Qed.

Lemma evolves_ret {A} (a : A) : evolves R (ret a).
Proof. intros w. apply R_refl. Qed.

Lemma evolves_throw {A} (e : exn) : evolves R (@throw A e).
Proof. intros w. apply R_refl. Qed.

Lemma evolves_lift {A} (o : outcome A) : evolves R (lift o).
Proof. intros w. apply R_refl. Qed.

(** What the pipelines do to the state, step by step. *)
Hypothesis R_logger : forall lvl msg, evolves R (logger lvl msg).
Hypothesis R_error : forall type, evolves R (inc type "error").
Hypothesis R_fresh : forall w, R w (fresh_id w).
Hypothesis R_created :
  forall type w uid pid factors,
    find (same_pair uid pid) (matches w) = None ->
    ge (calculateOverallMatch factors) (n 30) = true ->
    validate (document w uid pid factors) = true ->
    R w (created type w (document w uid pid factors)).

Lemma evolves_match_pair (type : string) (uid : ObjectId) (user : User.doc)
    (project : Project.doc) :
  evolves R (match_pair type uid user project).
Proof.
  intros w. rewrite match_pair_cases.
  destruct (find _ (matches w)) eqn:Hfind; [apply R_refl|].
  destruct (calculateFactors user project) as [factors|e]; [|apply R_refl].
  destruct (ge _ _) eqn:Hge; [|apply R_refl].
  destruct (validate _) eqn:Hv; cbn [snd].
  - now apply R_created.
  - apply R_fresh.
Qed.

Lemma evolves_generateMatchesForUser (env : Env) (uid : ObjectId) :
  evolves R (generateMatchesForUser env uid).
Proof.
  unfold generateMatchesForUser.
  apply evolves_try_catch.
  - apply evolves_bind; [apply evolves_lift|]. intros user.
    apply evolves_bind; [apply evolves_lift|]. intros projects.
    apply evolves_bind; [|intros _; apply R_logger].
    apply evolves_for_of. intros project. unfold user_candidate.
    apply evolves_bind; [apply evolves_lift|].
    intros [|]; [apply evolves_ret | apply evolves_match_pair].
  - intros _. apply evolves_bind; [apply R_logger | intros _; apply R_error].
Qed.

Lemma evolves_generateMatchesForProject (env : Env) (pid : ObjectId) :
  evolves R (generateMatchesForProject env pid).
Proof.
  unfold generateMatchesForProject.
  apply evolves_try_catch.
  - apply evolves_bind; [apply evolves_lift|]. intros project.
    apply evolves_bind.
    { destruct (Project.requiredSkills project);
        [apply evolves_ret | apply evolves_throw]. }
    intros skillsQuery.
    apply evolves_bind; [apply evolves_lift|]. intros users.
    apply evolves_bind; [|intros _; apply R_logger].
    apply evolves_for_of. intros user. apply evolves_match_pair.
  - intros _. apply evolves_bind; [apply R_logger | intros _; apply R_error].
Qed.

Lemma evolves_handleUserEvent (env : Env) (eventData : EventData.t)
    (key : string) :
  evolves R (handleUserEvent env eventData key).
Proof.
  unfold handleUserEvent. apply evolves_bind; [apply R_logger|]. intros _.
  destruct (_ || _); [apply evolves_generateMatchesForUser | apply evolves_ret].
Qed.

Lemma evolves_handleProjectEvent (env : Env) (eventData : EventData.t)
    (key : string) :
  evolves R (handleProjectEvent env eventData key).
Proof.
  unfold handleProjectEvent. apply evolves_bind; [apply R_logger|]. intros _.
  destruct (String.eqb _ _);
    [apply evolves_generateMatchesForProject | apply evolves_ret].
Qed.

(** The rest of what a request can do: settle a delivery, update a
    record. *)
Section Requests.

Hypothesis R_settle : forall s, evolves R (settle s).
Hypothesis R_status :
  forall id st, evolves R (findByIdAndUpdate id (set_status st)).
Hypothesis R_feedback :
  forall id fb, evolves R (findByIdAndUpdate id (set_feedback fb)).

Lemma evolves_serve (r : Request) (w : World) : R w (serve r w).
Proof.
  revert w. destruct r as [env [msg|]|env [msg|]|env uid pid|id st|id r c h];
    cbn [serve]; try (intros w; apply R_refl).
  - change (evolves R (consume_user_events env (Some msg))).
    unfold consume_user_events.
    apply evolves_try_catch.
    + apply evolves_bind; [apply evolves_lift|]. intros eventData.
      apply evolves_bind; [apply evolves_handleUserEvent|].
      intros _. apply R_settle.
    + intros _. apply evolves_bind; [apply R_logger|].
      intros _. apply R_settle.
  - change (evolves R (consume_project_events env (Some msg))).
    unfold consume_project_events.
    apply evolves_try_catch.
    + apply evolves_bind; [apply evolves_lift|]. intros eventData.
      apply evolves_bind; [apply evolves_handleProjectEvent|].
      intros _. apply R_settle.
    + intros _. apply evolves_bind; [apply R_logger|].
      intros _. apply R_settle.
  - change (evolves R (post_generate env uid pid)).
    unfold post_generate.
    apply evolves_try_catch;
      [|intros _; apply evolves_bind;
                  [apply R_logger | intros _; apply evolves_ret]].
    destruct uid as [[|c u]|]; destruct pid as [[|c' p]|];
      try apply evolves_ret;
      (apply evolves_bind; [|intros _; apply evolves_ret]);
      first [apply evolves_generateMatchesForUser
            |apply evolves_generateMatchesForProject].
  - change (evolves R (put_status id st)).
    unfold put_status.
    apply evolves_try_catch;
      [|intros _; apply evolves_bind;
                  [apply R_logger | intros _; apply evolves_ret]].
    destruct (match st with Some s => status_of_string s | None => None end);
      [|apply evolves_ret].
    apply evolves_bind; [apply R_status|].
    intros [m|]; apply evolves_ret.
  - change (evolves R (post_feedback id r c h)).
    unfold post_feedback.
    apply evolves_try_catch;
      [|intros _; apply evolves_bind;
                  [apply R_logger | intros _; apply evolves_ret]].
    apply evolves_bind; [apply R_feedback|].
    intros [m|]; apply evolves_ret.
Qed.

Lemma evolves_run (rs : list Request) (w : World) : R w (run rs w).
Proof.
  revert w. induction rs as [|r rs IH]; intros w; cbn; [apply R_refl|].
  exact (R_trans _ _ _ (evolves_serve r w) (IH (serve r w))).
Qed.

End Requests.

End Evolution.
(** ** The collection as a ledger *)

Section Ledger.

Lemma update_first_map {B} (g : Match -> B) (f : Match -> Match) (id : nat)
    (ms : list Match) :
  (forall m, g (f m) = g m) ->
  map g (snd (update_first f id ms)) = map g ms.
Proof.
  intros Hf. induction ms as [|m ms IH]; cbn; [reflexivity|].
  destruct (Nat.eqb (_id m) id); cbn.
  - now rewrite Hf.
  - destruct (update_first f id ms) as [r rest]. cbn in *. now rewrite IH.
Qed.

Lemma update_first_Forall (P : Match -> Prop) (f : Match -> Match) (id : nat)
    (ms : list Match) :
  (forall m, P m -> P (f m)) ->
  Forall P ms -> Forall P (snd (update_first f id ms)).
Proof.
  intros Hf. induction ms as [|m ms IH]; cbn; intros H; [constructor|].
  inversion H as [|? ? Hm Hms]; subst.
  destruct (Nat.eqb (_id m) id); cbn.
  - constructor; [now apply Hf | assumption].
  - specialize (IH Hms). destruct (update_first f id ms) as [r rest].
    cbn in *. now constructor.
Qed.

Lemma successes_snoc (increments : list (string * string))
    (type status : string) :
  successes (increments ++ [(type, status)])
  = (successes increments
     + (if String.eqb status "success" then 1 else 0))%nat.
Proof.
  unfold successes. rewrite filter_app, length_app. cbn.
  destruct (String.eqb status "success"); reflexivity.
Qed.

Lemma appended_refl (w : World) : appended w w.
Proof.
  split; [reflexivity|]. exists [].
  cbn. rewrite !app_nil_r, Nat.add_0_r.
  destruct (channel w); rewrite ?app_nil_r; auto.
Qed.

Lemma appended_trans (w1 w2 w3 : World) :
  appended w1 w2 -> appended w2 w3 -> appended w1 w3.
Proof.
  intros (Hc1 & a1 & Hm1 & Hp1 & Hs1) (Hc2 & a2 & Hm2 & Hp2 & Hs2).
  split; [congruence|]. exists (a1 ++ a2).
  rewrite Hm2, Hm1, Hp2, Hp1, Hs2, Hs1, Hc1.
  rewrite !map_app, length_app, <- !app_assoc.
  split; [reflexivity|]. split; [|lia].
  destruct (channel w1); rewrite ?app_nil_r; reflexivity.
Qed.

(** A step that touches neither the collection, nor the channel, nor the
    published events, nor the successes. *)
Lemma appended_same (w w' : World) :
  matches w' = matches w -> channel w' = channel w ->
  published w' = published w ->
  successes (counter w') = successes (counter w) ->
  appended w w'.
Proof.
  intros Hm Hc Hp Hs. split; [exact Hc|]. exists [].
  rewrite Hm, Hp, Hs. cbn. rewrite !app_nil_r, Nat.add_0_r.
  destruct (channel w); rewrite ?app_nil_r; auto.
Qed.

Lemma appended_update (id : nat) (update : World -> Match -> Match) :
  (forall w m, core (update w m) = core m) ->
  evolves appended (findByIdAndUpdate id update).
Proof.
  intros Hcore w. unfold findByIdAndUpdate.
  pose proof (update_first_map core (update w) id (matches w) (Hcore w)) as E.
  destruct (update_first (update w) id (matches w)) as [r ms].
  cbn [snd] in *.
  split; [reflexivity|]. exists [].
  cbn [matches published counter channel with_matches map List.length].
  rewrite E, !app_nil_r, Nat.add_0_r.
  destruct (channel w); rewrite ?app_nil_r; auto.
Qed.

(** X11. The collection is an append-only ledger that the events and
    the success counter follow. Whatever requests are served, from any
    state: no record is deleted or moved, no record has its identifier,
    pair, score, factors, reasons or creation time changed, and new
    records come after the old ones; the [match.created] events
    published meanwhile are, in order, the summaries (identifier, user,
    project, score) of exactly the records created meanwhile when the
    channel is set, and none is published when it is not; the number of
    "success" increments of the counter grows by the number of records
    created. *)
Theorem requests_append_and_announce (rs : list Request) (w : World) :
  channel (run rs w) = channel w
  /\ exists added : list Match,
       map core (matches (run rs w)) = map core (matches w) ++ map core added
       /\ map announced (published (run rs w))
          = map announced (published w)
            ++ (if channel w then map summary added else [])
       /\ successes (counter (run rs w))
          = (successes (counter w) + List.length added)%nat.
Proof.
  change (appended w (run rs w)).
  apply evolves_run.
  - exact appended_refl.
  - exact appended_trans.
  - (* logging *)
    intros lvl msg w0. now apply appended_same.
  - (* counting an error *)
    intros type w0. apply appended_same; try reflexivity.
    cbn [inc snd counter]. rewrite successes_snoc. cbn. lia.
  - (* an identifier used for a document that is not saved *)
    intros w0. now apply appended_same.
  - (* a creation *)
    intros type w0 uid pid factors _ _ _.
    split; [reflexivity|]. exists [document w0 uid pid factors].
    cbn [created matches published counter channel map List.length].
    rewrite map_app, successes_snoc. cbn [map String.eqb].
    split; [reflexivity|]. split; [|cbn; lia].
    destruct (channel w0); [|now rewrite app_nil_r].
    rewrite map_app. reflexivity.
  - (* settling a delivery *)
    intros s w0. now apply appended_same.
  - (* a status update *)
    intros id st. now apply appended_update.
  - (* a feedback update *)
    intros id fb. now apply appended_update.
Qed.

Lemma well_formed_document (w : World) (uid pid : ObjectId)
    (factors : Factors) :
  ge (calculateOverallMatch factors) (n 30) = true ->
  validate (document w uid pid factors) = true ->
  well_formed (document w uid pid factors).
Proof. intros Hge Hv. repeat split; assumption. Qed.

(** A well-formed record has an integer score between 30 and 100. *)
Lemma well_formed_score (m : Match) :
  well_formed m ->
  exists z, matchScore m = n z /\ (30 <= z <= 100)%Z.
Proof.
  intros (Hscore & _ & Hge & Hv).
  unfold validate in Hv. rewrite !andb_true_iff in Hv.
  destruct Hv as [[[[[[_ H100] _] _] _] _] _].
  rewrite Hscore in Hge, H100 |- *. unfold calculateOverallMatch in *.
  destruct (fold_left _ _ _) as [|[|]|q];
    try (cbn in Hge; discriminate); try (cbn in H100; discriminate).
  cbn [round] in *.
  change (Num (inject_Z (round_half_up q))) with (n (round_half_up q)) in *.
  exists (round_half_up q). split; [reflexivity|].
  rewrite ge_30 in Hge. apply Z.leb_le in Hge.
  unfold le, n, Qleb in H100. apply Qle_bool_iff in H100.
  rewrite <- Zle_Qle in H100. lia.
Qed.

Lemma keeps_well_formed_update (id : nat) (update : World -> Match -> Match) :
  (forall w m, well_formed m -> well_formed (update w m)) ->
  evolves keeps_well_formed (findByIdAndUpdate id update).
Proof.
  intros Hwf w H. unfold findByIdAndUpdate.
  pose proof (update_first_Forall well_formed (update w) id (matches w)
                (Hwf w) H) as E.
  destruct (update_first (update w) id (matches w)) as [r ms]. exact E.
Qed.

(** X12. Every stored record stays well formed. If each record of the
    collection has a score and reasons computed from its stored factors,
    a score of at least 30 and passes the validators, then the same holds
    after any sequence of requests, for the old records and for the new
    ones; in particular every stored score is an integer between 30 and
    100, so that nothing is stored below the threshold and status or
    feedback updates never desynchronize score and factors. *)
Theorem stored_records_well_formed (rs : list Request) (w : World) :
  Forall well_formed (matches w) ->
  Forall well_formed (matches (run rs w))
  /\ (forall m, In m (matches (run rs w)) ->
                exists z, matchScore m = n z /\ (30 <= z <= 100)%Z).
Proof.
  intros H.
  assert (Hrun : Forall well_formed (matches (run rs w))).
  { revert H. change (keeps_well_formed w (run rs w)).
    apply evolves_run.
    - intros w0 H0. exact H0.
    - intros w1 w2 w3 H12 H23 H1. exact (H23 (H12 H1)).
    - (* logging *)
      intros lvl msg w0 H0. exact H0.
    - (* counting an error *)
      intros type w0 H0. exact H0.
    - (* an identifier used for a document that is not saved *)
      intros w0 H0. exact H0.
    - (* a creation *)
      intros type w0 uid pid factors _ Hge Hv H0.
      cbn [created matches]. apply Forall_app. split; [exact H0|].
      constructor; [|constructor]. now apply well_formed_document.
    - (* settling a delivery *)
      intros s w0 H0. exact H0.
    - (* a status update *)
      intros id st. apply keeps_well_formed_update.
      intros w0 m Hm. exact Hm.
    - (* a feedback update *)
      intros id fb. apply keeps_well_formed_update.
      intros w0 m Hm. exact Hm. }
  split; [exact Hrun|].
  intros m Hin. apply well_formed_score.
  exact (proj1 (Forall_forall _ _) Hrun m Hin).
Qed.

Lemma stored_records_well_formed_witness :
  Forall well_formed
    (matches (run [generate_call Samples.catalogue (Some "u1") None;
                   status_call 0 (Some "applied");
                   feedback_call 1 (Some 5%Q) None (Some true)]
                  (initial true)))
  /\ (forall m,
        In m (matches (run [generate_call Samples.catalogue (Some "u1") None;
                            status_call 0 (Some "applied");
                            feedback_call 1 (Some 5%Q) None (Some true)]
                           (initial true))) ->
        exists z, matchScore m = n z /\ (30 <= z <= 100)%Z).
Proof.
  apply (stored_records_well_formed
           [generate_call Samples.catalogue (Some "u1") None;
            status_call 0 (Some "applied");
            feedback_call 1 (Some 5%Q) None (Some true)]
           (initial true)).
  simpl. constructor.
Defined.

End Ledger.
(** ** What a generation run creates *)

Section Creations.

(** A loop whose passes only append records satisfying [P]. *)
Lemma for_of_creates {A} (P : A -> Match -> Prop) (body : A -> M unit)
    (l : list A) (w : World) :
  (forall x w0, In x l ->
     exists added,
       matches (snd (body x w0)) = matches w0 ++ added
       /\ Forall (P x) added) ->
  exists added,
    matches (snd (for_of l body w)) = matches w ++ added
    /\ Forall (fun m => exists x, In x l /\ P x m) added.
Proof.
  revert w. induction l as [|x l IH]; intros w Hbody; cbn [for_of].
  - exists []. split; [now rewrite app_nil_r | constructor].
  - destruct (Hbody x w (or_introl eq_refl)) as (a1 & E1 & F1).
    assert (F1' : Forall (fun m => exists y, In y (x :: l) /\ P y m) a1).
    { apply (Forall_impl _ (P := P x)); [|exact F1].
      intros m Hm. exists x. split; [now left | exact Hm]. }
    unfold bind. destruct (body x w) as [[[]|e] w1]; cbn [snd] in *.
    + destruct (IH w1) as (a2 & E2 & F2).
      { intros y w0 Hy. apply Hbody. now right. }
      exists (a1 ++ a2). split; [now rewrite E2, E1, app_assoc|].
      apply Forall_app. split; [exact F1'|].
      apply (Forall_impl _ (P := fun m => exists y, In y l /\ P y m));
        [|exact F2].
      intros m (y & Hy & Hm). exists y. split; [now right | exact Hm].
    + exists a1. split; [exact E1 | exact F1'].
Qed.

(** One pass appends nothing, or one brand-new record of the pair. *)
Lemma match_pair_creates (type : string) (uid : ObjectId) (user : User.doc)
    (project : Project.doc) (w : World) :
  exists added,
    matches (snd (match_pair type uid user project w)) = matches w ++ added
    /\ Forall (fun m => userId m = uid
                        /\ projectId m = Project._id project
                        /\ brand_new m) added.
Proof.
  assert (Hnone : exists added : list Match,
             matches w = matches w ++ added
             /\ Forall (fun m => userId m = uid
                                 /\ projectId m = Project._id project
                                 /\ brand_new m) added).
  { exists []. split; [now rewrite app_nil_r | constructor]. }
  rewrite match_pair_cases.
  destruct (find _ (matches w)); [exact Hnone|].
  destruct (calculateFactors user project) as [factors|e]; [|exact Hnone].
  destruct (ge _ _) eqn:Hge; [|exact Hnone].
  destruct (validate _) eqn:Hv; [|exact Hnone].
  exists [document w uid (Project._id project) factors].
  split; [reflexivity|]. constructor; [|constructor].
  repeat split; assumption.
Qed.

(** X13. A generation run for a user only appends records, all for that
    user, each one brand new (status pending, no feedback, score and
    reasons computed from its factors, score at least 30), and each one
    for a project of the fetched list of which the user is not recorded
    as a collaborator. Nothing is appended when the user or the list
    cannot be fetched. *)
Theorem generateMatchesForUser_creates (env : Env) (uid : ObjectId)
    (w : World) :
  exists added,
    matches (snd (generateMatchesForUser env uid w)) = matches w ++ added
    /\ Forall (fun m =>
                 userId m = uid
                 /\ brand_new m
                 /\ exists project,
                      In project (listed_projects env uid)
                      /\ projectId m = Project._id project
                      /\ is_collaborator project uid = Ok false)
              added.
Proof.
  assert (Hnone : exists added : list Match,
             matches w = matches w ++ added
             /\ Forall (fun m =>
                          userId m = uid
                          /\ brand_new m
                          /\ exists project,
                               In project (listed_projects env uid)
                               /\ projectId m = Project._id project
                               /\ is_collaborator project uid = Ok false)
                       added).
  { exists []. split; [now rewrite app_nil_r | constructor]. }
  unfold generateMatchesForUser, try_catch, bind, lift, listed_projects
    in *.
  destruct (getUser env uid) as [user|e]; [|exact Hnone].
  destruct (getActiveProjects env) as [projects|e]; [|exact Hnone].
  clear Hnone.
  destruct (for_of_creates
              (fun project m =>
                 userId m = uid /\ brand_new m
                 /\ projectId m = Project._id project
                 /\ is_collaborator project uid = Ok false)
              (user_candidate uid user) projects w) as (added & E & F).
  { (* one pass of the loop *)
    intros project w0 _. unfold user_candidate, bind, lift.
    destruct (is_collaborator project uid) as [[|]|e] eqn:Hcollab;
      try (exists []; split; [now rewrite app_nil_r | constructor]).
    destruct (match_pair_creates "user" uid user project w0)
      as (a & Ea & Fa).
    exists a. split; [exact Ea|].
    apply (Forall_impl _ (P := fun m => userId m = uid
                               /\ projectId m = Project._id project
                               /\ brand_new m)); [|exact Fa].
    intros m (Hu & Hp & Hn). repeat split; assumption || apply Hn. }
  exists added. split.
  - destruct (for_of projects (user_candidate uid user) w) as [[[]|e] w1];
      exact E.
  - revert F. apply Forall_impl.
    intros m (project & Hin & Hu & Hn & Hp & Hc).
    split; [exact Hu|]. split; [exact Hn|].
    exists project. repeat split; assumption.
Qed.

(** X14. A generation run for a project only appends brand-new records,
    all for the fetched project and each for one of the users the skills
    query returned. Nothing is appended when the project cannot be
    fetched, has no [requiredSkills] field, or the query fails. *)
Theorem generateMatchesForProject_creates (env : Env) (pid : ObjectId)
    (w : World) :
  exists added,
    matches (snd (generateMatchesForProject env pid w)) = matches w ++ added
    /\ Forall (fun m =>
                 brand_new m
                 /\ (exists project,
                       fetched_project env pid = Some project
                       /\ projectId m = Project._id project)
                 /\ exists user,
                      In user (listed_users env pid)
                      /\ userId m = User._id user)
              added.
Proof.
  assert (Hnone : exists added : list Match,
             matches w = matches w ++ added
             /\ Forall (fun m =>
                          brand_new m
                          /\ (exists project,
                                fetched_project env pid = Some project
                                /\ projectId m = Project._id project)
                          /\ exists user,
                               In user (listed_users env pid)
                               /\ userId m = User._id user)
                       added).
  { exists []. split; [now rewrite app_nil_r | constructor]. }
  unfold generateMatchesForProject, try_catch, bind, lift, listed_users,
    fetched_project in *.
  destruct (getProject env pid) as [project|e]; [|exact Hnone].
  destruct (Project.requiredSkills project) as [required|]; [|exact Hnone].
  cbn [ret].
  destruct (getUsersBySkills env required) as [users|e]; [|exact Hnone].
  clear Hnone.
  destruct (for_of_creates
              (fun user m =>
                 userId m = User._id user
                 /\ projectId m = Project._id project
                 /\ brand_new m)
              (project_candidate project) users w) as (added & E & F).
  { intros user w0 _. apply match_pair_creates. }
  exists added. split.
  - destruct (for_of users (project_candidate project) w) as [[[]|e] w1];
      exact E.
  - revert F. apply Forall_impl.
    intros m (user & Hin & Hu & Hp & Hn).
    split; [exact Hn|]. split.
    + exists project. split; [reflexivity | exact Hp].
    + exists user. split; assumption.
Qed.



End Creations.
(** ** Deliveries and write routes *)

Section Deliveries.






End Deliveries.

Section WriteRoutes.

(** X17. The manual trigger never answers 500 and hides what generation
    did. With a non-empty [userId] it runs the generation for that user
    (a [projectId] given as well is ignored) and answers 200 "Matching
    process initiated"; otherwise, with a non-empty [projectId], it runs
    the generation for that project and answers the same; the answer is
    200 even when a collaborator was down and nothing was generated. With
    neither, it answers 400 and the state is untouched. *)
Theorem post_generate_answers (env : Env) (userId projectId : option ObjectId)
    (w : World) :
  let initiated :=
    Ok {| code := 200; body := message_body "Matching process initiated" |} in
  match userId, projectId with
  | Some (String c u), _ =>
      post_generate env userId projectId w
      = (initiated, snd (generateMatchesForUser env (String c u) w))
  | _, Some (String c p) =>
      post_generate env userId projectId w
      = (initiated, snd (generateMatchesForProject env (String c p) w))
  | _, _ =>
      post_generate env userId projectId w
      = (Ok {| code := 400; body := error_body "userId or projectId required" |},
         w)
  end.
Proof.
  cbn zeta.
  assert (Hu : forall uid pid',
    post_generate env (Some uid) pid' w
    = match uid with
      | String _ _ =>
          (Ok {| code := 200;
                 body := message_body "Matching process initiated" |},
           snd (generateMatchesForUser env uid w))
      | EmptyString => post_generate env (Some EmptyString) pid' w
      end).
  { intros [|c u] pid'; [reflexivity|].
    unfold post_generate, try_catch, bind.
    pose proof (generateMatchesForUser_returns env (String c u) w) as Hr.
    destruct (generateMatchesForUser env (String c u) w) as [[[]|e] w1];
      cbn [fst snd] in *; [reflexivity | discriminate]. }
  assert (Hp : forall c p,
    try_catch
      (generateMatchesForProject env (String c p) ;;
       ret {| code := 200;
              body := message_body "Matching process initiated" |})
      (fun _ =>
         logger error "Manual matching error:" ;;
         ret {| code := 500; body := error_body "Internal server error" |}) w
    = (Ok {| code := 200;
             body := message_body "Matching process initiated" |},
       snd (generateMatchesForProject env (String c p) w))).
  { intros c p. unfold try_catch, bind.
    pose proof (generateMatchesForProject_returns env (String c p) w) as Hr.
    destruct (generateMatchesForProject env (String c p) w) as [[[]|e] w1];
      cbn [fst snd] in *; [reflexivity | discriminate]. }
  destruct userId as [[|c u]|].
  - destruct projectId as [[|c p]|]; [reflexivity | apply Hp | reflexivity].
  - apply (Hu (String c u)).
  - destruct projectId as [[|c p]|]; [reflexivity | apply Hp | reflexivity].
Qed.

Lemma with_matches_same (w : World) : with_matches w (matches w) = w.
Proof. destruct w. reflexivity. Qed.

Lemma update_first_missing (f : Match -> Match) (id : nat) (ms : list Match) :
  findById id ms = None -> update_first f id ms = (None, ms).
Proof.
  unfold findById. induction ms as [|m ms IH]; cbn; [reflexivity|].
  destruct (Nat.eqb (_id m) id); [discriminate|].
  intros H. now rewrite (IH H).
Qed.

(** X18. An update of a match that does not exist creates nothing.
    Feedback or a valid status sent for an unknown identifier is answered
    404 "Match not found" and leaves the whole state as it was: the
    update is not an upsert, and nothing is logged. *)
Theorem update_of_unknown_match (matchId : nat) (w : World) :
  findById matchId (matches w) = None ->
  (forall rating comment helpful,
     post_feedback matchId rating comment helpful w
     = (Ok {| code := 404; body := error_body "Match not found" |}, w))
  /\ (forall s st,
        status_of_string s = Some st ->
        put_status matchId (Some s) w
        = (Ok {| code := 404; body := error_body "Match not found" |}, w)).
Proof.
  intros Hm. split.
  - intros rating comment helpful.
    unfold post_feedback, try_catch, bind, findByIdAndUpdate.
    rewrite (update_first_missing _ _ _ Hm). cbn.
    now rewrite with_matches_same.
  - intros s st Hs.
    unfold put_status, try_catch, bind, findByIdAndUpdate.
    rewrite Hs, (update_first_missing _ _ _ Hm). cbn.
    now rewrite with_matches_same.
Qed.

Lemma update_of_unknown_match_witness :
  (forall rating comment helpful,
     post_feedback 8 rating comment helpful (Samples.one_match viewed)
     = (Ok {| code := 404; body := error_body "Match not found" |},
        Samples.one_match viewed))
  /\ (forall s st,
        status_of_string s = Some st ->
        put_status 8 (Some s) (Samples.one_match viewed)
        = (Ok {| code := 404; body := error_body "Match not found" |},
           Samples.one_match viewed)).
Proof.
  apply (update_of_unknown_match 8 (Samples.one_match viewed)).
  reflexivity.
Defined.

Lemma update_first_twice (f g : Match -> Match) (id : nat) (ms : list Match) :
  (forall m, _id (g m) = _id m) ->
  snd (update_first f id (snd (update_first g id ms)))
  = snd (update_first (fun m => f (g m)) id ms).
Proof.
  intros Hg. induction ms as [|m ms IH]; cbn; [reflexivity|].
  destruct (Nat.eqb (_id m) id) eqn:E; cbn.
  - now rewrite Hg, E.
  - destruct (update_first g id ms) as [r rest]. cbn in *. rewrite E.
    destruct (update_first f id rest) as [r' rest'].
    destruct (update_first (fun m0 => f (g m0)) id ms) as [r'' rest''].
    cbn in *. now rewrite IH.
Qed.

Lemma update_first_record_content (f g : Match -> Match) (id : nat)
    (ms : list Match) :
  (forall m, record_content (f m) = record_content (g m)) ->
  map record_content (snd (update_first f id ms))
  = map record_content (snd (update_first g id ms)).
Proof.
  intros H. induction ms as [|m ms IH]; cbn; [reflexivity|].
  destruct (Nat.eqb (_id m) id); cbn.
  - now rewrite H.
  - destruct (update_first f id ms) as [r rest].
    destruct (update_first g id ms) as [r' rest']. cbn in *. now rewrite IH.
Qed.

(** The collection after a feedback call and after a status call. *)
Lemma post_feedback_matches (id : nat) (rating : option Q)
    (comment : option string) (helpful : option bool) (w : World) :
  snd (post_feedback id rating comment helpful w)
  = with_matches w
      (snd (update_first
              (set_feedback {| rating := rating; comment := comment;
                               helpful := helpful |} w)
              id (matches w))).
Proof.
  unfold post_feedback, try_catch, bind, findByIdAndUpdate.
  destruct (update_first _ id (matches w)) as [[m|] ms]; reflexivity.
Qed.

Lemma put_status_matches (id : nat) (s : string) (st : Status) (w : World) :
  status_of_string s = Some st ->
  snd (put_status id (Some s) w)
  = with_matches w (snd (update_first (set_status st w) id (matches w))).
Proof.
  intros Hs. unfold put_status, try_catch, bind, findByIdAndUpdate.
  rewrite Hs.
  destruct (update_first _ id (matches w)) as [[m|] ms]; reflexivity.
Qed.

(** X19. Status and feedback are independent, and the last feedback
    replaces the previous one entirely. A status update and a feedback
    call on the same match give the same stored records (update times
    apart) in either order; after two feedback calls on a match the
    stored records are those the second call alone would have left, so a
    rating, comment or usefulness flag left out of the second call is
    erased rather than kept. *)
Theorem status_and_feedback_compose (id : nat) (s : option string)
    (r1 r2 : option Q) (c1 c2 : option string) (h1 h2 : option bool)
    (w : World) :
  map record_content
      (matches (snd (put_status id s (snd (post_feedback id r1 c1 h1 w)))))
  = map record_content
        (matches (snd (post_feedback id r1 c1 h1 (snd (put_status id s w)))))
  /\ map record_content
         (matches (snd (post_feedback id r2 c2 h2
                          (snd (post_feedback id r1 c1 h1 w)))))
     = map record_content (matches (snd (post_feedback id r2 c2 h2 w))).
Proof.
  split.
  - destruct (match s with Some s => status_of_string s | None => None end)
      as [st|] eqn:Hs.
    + destruct s as [s|]; [|discriminate].
      rewrite (put_status_matches id s st _ Hs),
        (put_status_matches id s st _ Hs), !post_feedback_matches.
      cbn [matches with_matches].
      rewrite !update_first_twice by reflexivity.
      apply update_first_record_content. reflexivity.
    + (* a status that is not accepted changes nothing *)
      assert (Hput : forall w0, snd (put_status id s w0) = w0).
      { intros w0. unfold put_status, try_catch. now rewrite Hs. }
      now rewrite !Hput.
  - rewrite !post_feedback_matches. cbn [matches with_matches].
    rewrite update_first_twice by reflexivity.
    apply update_first_record_content. reflexivity.
Qed.

End WriteRoutes.
(** ** The read routes *)

Section ReadRoutes.

Import Listing.

Lemma logged_nil (w : World) : logged w [] = w.
Proof. destruct w. unfold logged. cbn. now rewrite app_nil_r. Qed.

Lemma logged_logged (w : World) (a b : list (Level * string)) :
  logged (logged w a) b = logged w (a ++ b).
Proof. unfold logged. cbn. now rewrite app_assoc. Qed.

Lemma bind_ok {A B} (m : M A) (k : A -> M B) (w w1 : World) (a : A) :
  m w = (Ok a, w1) -> bind m k w = k a w1.
Proof. intros H. unfold bind. now rewrite H. Qed.

(** The enrichment of a page: every record is kept, in order, with the
    fetched document when there is one; each failed fetch leaves one
    error entry in the log. *)
Lemma enrichment {A} (fetch : Match -> outcome A) (msg : string)
    (ms : list Match) (w : World) :
  promise_all_map
    (fun m =>
       try_catch
         (response <- lift (fetch m) ;; ret (m, Some response))
         (fun _ => logger error msg ;; ret (m, None)))
    ms w
  = (Ok (map (attach fetch) ms),
     logged w (repeat (error, msg)
                      (List.length (List.filter (fetch_fails fetch) ms)))).
Proof.
  revert w. induction ms as [|m ms IH]; intros w; cbn [promise_all_map].
  - cbn. now rewrite logged_nil.
  - assert (Hstep :
      try_catch
        (response <- lift (fetch m) ;; ret (m, Some response))
        (fun _ => logger error msg ;; ret (m, None)) w
      = (Ok (attach fetch m),
         logged w (if fetch_fails fetch m then [(error, msg)] else []))).
    { unfold try_catch, bind, lift, attach, fetch_fails, logger, ret.
      destruct (fetch m); [now rewrite logged_nil | reflexivity]. }
    rewrite (bind_ok _ _ _ _ _ Hstep).
    rewrite (bind_ok _ _ _ _ _ (IH _)).
    unfold ret. rewrite logged_logged. cbn [map List.filter].
    destruct (fetch_fails fetch m); reflexivity.
Qed.

(** What the two routes answer and do to the state. *)
Lemma get_user_matches_spec (env : Env) (userId : ObjectId)
    (page limit : option positive) (minScore : option Q) (w : World) :
  get_user_matches env userId page limit minScore w
  = (Ok (listed (user_filter userId (or_default minScore 30%Q))
                (fun m => getProject env (projectId m))
                (or_default page 1%positive) (or_default limit 20%positive)
                w),
     logged w
       (repeat (error, "Error fetching project for match:")
          (List.length
             (List.filter
                (fetch_fails (fun m => getProject env (projectId m)))
                (page_of (user_filter userId (or_default minScore 30%Q))
                   (or_default page 1%positive)
                   (or_default limit 20%positive) w))))).
Proof.
  unfold get_user_matches, try_catch at 1, bind at 1, Match_find.
  fold (or_default page 1%positive). fold (or_default limit 20%positive).
  fold (or_default minScore 30%Q).
  rewrite Nat.mul_1_r.
  fold (page_of (user_filter userId (or_default minScore 30%Q))
          (or_default page 1%positive) (or_default limit 20%positive) w).
  rewrite (bind_ok _ _ _ _ _ (enrichment _ _ _ _)). reflexivity.
Qed.

Lemma get_project_matches_spec (env : Env) (projectId : ObjectId)
    (page limit : option positive) (minScore : option Q) (w : World) :
  get_project_matches env projectId page limit minScore w
  = (Ok (listed (project_filter projectId (or_default minScore 30%Q))
                (fun m => getUser env (userId m))
                (or_default page 1%positive) (or_default limit 20%positive)
                w),
     logged w
       (repeat (error, "Error fetching user for match:")
          (List.length
             (List.filter
                (fetch_fails (fun m => getUser env (userId m)))
                (page_of (project_filter projectId (or_default minScore 30%Q))
                   (or_default page 1%positive)
                   (or_default limit 20%positive) w))))).
Proof.
  unfold get_project_matches, try_catch at 1, bind at 1, Match_find.
  fold (or_default page 1%positive). fold (or_default limit 20%positive).
  fold (or_default minScore 30%Q).
  rewrite Nat.mul_1_r.
  fold (page_of (project_filter projectId (or_default minScore 30%Q))
          (or_default page 1%positive) (or_default limit 20%positive) w).
  rewrite (bind_ok _ _ _ _ _ (enrichment _ _ _ _)). reflexivity.
Qed.

Lemma insert_In (m x : Match) (l : list Match) :
  In x (insert m l) <-> x = m \/ In x l.
Proof.
  induction l as [|y l IH]; cbn.
  - intuition.
  - destruct (before m y); cbn; [intuition|]. rewrite IH. intuition.
Qed.

Lemma sort_In (x : Match) (l : list Match) : In x (sort l) <-> In x l.
Proof.
  induction l as [|y l IH]; [reflexivity|].
  change (sort (y :: l)) with (insert y (sort l)).
  rewrite insert_In, IH. cbn. intuition.
Qed.

Lemma insert_length (m : Match) (l : list Match) :
  List.length (insert m l) = S (List.length l).
Proof.
  induction l as [|y l IH]; cbn; [reflexivity|].
  destruct (before m y); cbn; [reflexivity | now rewrite IH].
Qed.

Lemma sort_length (l : list Match) : List.length (sort l) = List.length l.
Proof.
  induction l as [|y l IH]; [reflexivity|].
  change (sort (y :: l)) with (insert y (sort l)).
  now rewrite insert_length, IH.
Qed.

Lemma firstn_In {A} (n : nat) (l : list A) (x : A) :
  In x (firstn n l) -> In x l.
Proof.
  intros H. rewrite <- (firstn_skipn n l). apply in_or_app. now left.
Qed.

Lemma skipn_In {A} (n : nat) (l : list A) (x : A) :
  In x (skipn n l) -> In x l.
Proof.
  intros H. rewrite <- (firstn_skipn n l). apply in_or_app. now right.
Qed.

Lemma page_of_In (filter : Match -> bool) (page limit : positive) (w : World)
    (m : Match) :
  In m (page_of filter page limit w) -> In m (matches w) /\ filter m = true.
Proof.
  unfold page_of. intros H.
  apply firstn_In, skipn_In, sort_In, filter_In in H. exact H.
Qed.

(** [Math.ceil(total / limit)] is the least number of pages of [limit]
    records that hold [total] records. *)
Lemma page_count_least (total : nat) (limit : positive) :
  ((page_count total limit - 1) * Z.pos limit
   < Z.of_nat total <= page_count total limit * Z.pos limit)%Z.
Proof.
  unfold page_count.
  set (x := (inject_Z (Z.of_nat total) / inject_Z (Z.pos limit))%Q).
  assert (Hpos : (0 < inject_Z (Z.pos limit))%Q).
  { change 0%Q with (inject_Z 0). rewrite <- Zlt_Qlt. lia. }
  assert (Hx : (x * inject_Z (Z.pos limit) == inject_Z (Z.of_nat total))%Q).
  { subst x. field. intros E. rewrite E in Hpos. now apply Qlt_irrefl in Hpos. }
  pose proof (Qle_ceiling x) as Hle.
  pose proof (Qceiling_lt x) as Hlt.
  split.
  - rewrite Zlt_Qlt, inject_Z_mult, <- Hx.
    apply Qmult_lt_compat_r; assumption.
  - rewrite Zle_Qle, inject_Z_mult, <- Hx.
    apply Qmult_le_compat_r; [assumption | now apply Qlt_le_weak].
Qed.

(** Beyond the last page there is nothing. *)
Lemma page_of_beyond (filter : Match -> bool) (page limit : positive)
    (w : World) :
  (page_count (List.length (List.filter filter (matches w))) limit
   < Z.pos page)%Z ->
  page_of filter page limit w = [].
Proof.
  intros H. unfold page_of.
  pose proof (page_count_least
                (List.length (List.filter filter (matches w))) limit) as [_ Hle].
  rewrite skipn_all2; [apply firstn_nil|].
  rewrite sort_length. nia.
Qed.

Lemma listed_page_answer {A} (filter : Match -> bool)
    (fetch : Match -> outcome A) (page limit : positive) (w : World)
    (entries : list (Level * string)) :
  page_answer filter page limit w (listed filter fetch page limit w)
              (logged w entries).
Proof.
  unfold page_answer, listed. eexists. eexists.
  split; [reflexivity|]. cbn [current total pages].
  assert (Hfst : map fst (map (attach fetch) (page_of filter page limit w))
                 = page_of filter page limit w).
  { rewrite map_map. cbn. apply map_id. }
  rewrite Hfst, length_map.
  split; [apply Forall_forall; intros m; apply page_of_In|].
  split; [unfold page_of; apply firstn_le_length|].
  split; [reflexivity|]. split; [reflexivity|].
  split; [apply page_count_least|].
  split; [|exists entries; reflexivity].
  intros H. now rewrite page_of_beyond.
Qed.

(** X20. The two listing routes answer with one page of the stored
    matches of the requested user (or project) whose score is at least
    [minScore]: every listed record is stored, belongs to that user (or
    project) and has such a score; there are at most [limit] of them and
    none beyond the last page; [total] counts the whole selection
    whatever the page, and [pages] is the least number of pages of
    [limit] records that hold it (0 for an empty selection). The routes
    never answer 500 and only read the collection: nothing but the log
    can change. Absent query values stand for page 1, limit 20 and
    minimum score 30. *)
Theorem listing_routes_select (env : Env) (id : ObjectId)
    (page limit : option positive) (minScore : option Q) (w : World) :
  page_answer
    (fun m => String.eqb (userId m) id
              && ge (matchScore m) (Num (or_default minScore 30%Q)))
    (or_default page 1%positive) (or_default limit 20%positive) w
    (match fst (get_user_matches env id page limit minScore w) with
     | Ok answer => answer
     | Throw _ => failed 500 "Internal server error"
     end)
    (snd (get_user_matches env id page limit minScore w))
  /\ page_answer
       (fun m => String.eqb (projectId m) id
                 && ge (matchScore m) (Num (or_default minScore 30%Q)))
       (or_default page 1%positive) (or_default limit 20%positive) w
       (match fst (get_project_matches env id page limit minScore w) with
        | Ok answer => answer
        | Throw _ => failed 500 "Internal server error"
        end)
       (snd (get_project_matches env id page limit minScore w)).
Proof.
  split.
  - rewrite get_user_matches_spec. cbn [fst snd].
    apply (listed_page_answer (user_filter id (or_default minScore 30%Q))).
  - rewrite get_project_matches_spec. cbn [fst snd].
    apply (listed_page_answer (project_filter id (or_default minScore 30%Q))).
Qed.

(** X21. A collaborator that is down degrades a listing instead of
    failing it. In the answer of either route every listed match is
    present whether or not its project (or user) could be fetched: the
    item carries the fetched document when the fetch succeeded and the
    bare match when it failed, the state gets one error log entry per
    failed fetch and nothing else, and the answer is never an error. *)
Theorem listing_routes_enrich (env : Env) (id : ObjectId)
    (page limit : option positive) (minScore : option Q) (w : World) :
  enriched_answer
    (fun m => getProject env (projectId m))
    "Error fetching project for match:" w
    (match fst (get_user_matches env id page limit minScore w) with
     | Ok answer => answer
     | Throw _ => failed 500 "Internal server error"
     end)
    (snd (get_user_matches env id page limit minScore w))
  /\ enriched_answer
       (fun m => getUser env (userId m))
       "Error fetching user for match:" w
       (match fst (get_project_matches env id page limit minScore w) with
        | Ok answer => answer
        | Throw _ => failed 500 "Internal server error"
        end)
       (snd (get_project_matches env id page limit minScore w)).
Proof.
  assert (Hfst : forall A (fetch : Match -> outcome A) ms,
             map fst (map (attach fetch) ms) = ms).
  { intros A fetch ms. rewrite map_map. cbn. apply map_id. }
  split.
  - rewrite get_user_matches_spec. cbn [fst snd].
    unfold enriched_answer, listed. eexists. eexists.
    split; [reflexivity|]. rewrite Hfst. split; reflexivity.
  - rewrite get_project_matches_spec. cbn [fst snd].
    unfold enriched_answer, listed. eexists. eexists.
    split; [reflexivity|]. rewrite Hfst. split; reflexivity.
Qed.











Lemma filter_ext_in_length {A} (p q : A -> bool) (l : list A) :
  (forall x, In x l -> p x = q x) ->
  List.length (List.filter p l) = List.length (List.filter q l).
Proof.
  intros H. rewrite (filter_ext_in p q l H). reflexivity.
Qed.

Lemma well_formed_at_least_30 (m : Match) :
  well_formed m -> ge (matchScore m) (Num 30) = true.
Proof. intros (_ & _ & H & _). exact H. Qed.

(** X23. The default listing hides nothing. When the stored records are
    well formed (as every record created by the pipelines is), a listing
    requested without [minScore] selects every stored match of the user
    (or project): the default minimum of 30 is the creation threshold,
    so [total] is the number of records of that user (or project). *)
Theorem default_listing_is_complete (env : Env) (id : ObjectId)
    (page limit : option positive) (w : World) :
  Forall well_formed (matches w) ->
  (exists items pagination,
     fst (get_user_matches env id page limit None w)
     = Ok (listing items pagination)
     /\ total pagination
        = List.length
            (List.filter (fun m => String.eqb (userId m) id) (matches w)))
  /\ (exists items pagination,
        fst (get_project_matches env id page limit None w)
        = Ok (listing items pagination)
        /\ total pagination
           = List.length
               (List.filter (fun m => String.eqb (projectId m) id)
                            (matches w))).
Proof.
  intros H. split.
  - rewrite get_user_matches_spec. cbn [fst]. unfold listed.
    eexists. eexists. split; [reflexivity|]. cbn [total].
    apply filter_ext_in_length. intros m Hm. unfold user_filter.
    cbn [or_default].
    rewrite (well_formed_at_least_30 m
               (proj1 (Forall_forall _ _) H m Hm)).
    apply andb_true_r.
  - rewrite get_project_matches_spec. cbn [fst]. unfold listed.
    eexists. eexists. split; [reflexivity|]. cbn [total].
    apply filter_ext_in_length. intros m Hm. unfold project_filter.
    cbn [or_default].
    rewrite (well_formed_at_least_30 m
               (proj1 (Forall_forall _ _) H m Hm)).
    apply andb_true_r.
Qed.

Lemma default_listing_is_complete_witness :
  (exists items pagination,
     fst (get_user_matches Samples.catalogue "u1" None None None
            (run [generate_call Samples.catalogue (Some "u1") None]
                 (initial true)))
     = Ok (listing items pagination)
     /\ total pagination
        = List.length
            (List.filter (fun m => String.eqb (userId m) "u1")
               (matches (run [generate_call Samples.catalogue (Some "u1") None]
                             (initial true)))))
  /\ (exists items pagination,
        fst (get_project_matches Samples.catalogue "u1" None None None
               (run [generate_call Samples.catalogue (Some "u1") None]
                    (initial true)))
        = Ok (listing items pagination)
        /\ total pagination
           = List.length
               (List.filter (fun m => String.eqb (projectId m) "u1")
                  (matches (run [generate_call Samples.catalogue (Some "u1")
                                   None]
                                (initial true))))).
Proof.
  apply (default_listing_is_complete Samples.catalogue "u1" None None
           (run [generate_call Samples.catalogue (Some "u1") None]
                (initial true))).
  vm_compute. repeat constructor.
Defined.

End ReadRoutes.
(** ** The user service behind the matching service *)

Section UserServiceCalls.

Import UserService.

Lemma rev_string_rev_string (s a b : string) :
  rev_string a (rev_string b s) = rev_string (s ++ a)%string b.
Proof.
  revert a b. induction s as [|c s IH]; intros a b; cbn; [reflexivity|].
  now rewrite IH.
Qed.

Lemma append_empty (s : string) : (s ++ "")%string = s.
Proof. induction s as [|c s IH]; cbn; [reflexivity | now rewrite IH]. Qed.

Lemma rev_string_involutive (s : string) :
  rev_string EmptyString (rev_string EmptyString s) = s.
Proof. rewrite rev_string_rev_string. cbn. apply append_empty. Qed.

(** Splitting goes through a prefix that lacks the separator. *)
Lemma split_aux_lacks (sep : ascii) (s t cur : string) :
  lacks sep s = true ->
  split_aux sep cur (s ++ t)%string = split_aux sep (rev_string cur s) t.
Proof.
  revert cur. induction s as [|c s IH]; intros cur H; cbn; [reflexivity|].
  cbn in H. apply andb_true_iff in H as [Hc Hs].
  apply negb_true_iff in Hc. rewrite Hc. now apply IH.
Qed.

Lemma split_cons (sep : ascii) (s t : string) :
  lacks sep s = true ->
  split sep (s ++ String sep t)%string = s :: split sep t.
Proof.
  intros H. unfold split. rewrite (split_aux_lacks _ _ _ _ H). cbn.
  now rewrite Ascii.eqb_refl, rev_string_involutive.
Qed.

Lemma split_single (sep : ascii) (s : string) :
  lacks sep s = true -> split sep s = [s].
Proof.
  intros H. unfold split.
  rewrite <- (append_empty s) at 1.
  rewrite (split_aux_lacks _ _ _ _ H). cbn.
  now rewrite rev_string_involutive.
Qed.

(** X24. [authenticateToken] lets a request through on its token
    alone. A request without [Authorization] header is refused with 401
    and the route is not run; so is a header of one word (a bare token
    without scheme). For a header made of a scheme word, a space and a
    token, the scheme is never looked at: the request is refused with 401
    when the token is empty, with 403 when it does not verify, and handed
    to the route with the verified payload otherwise, whatever the scheme
    is ("Bearer", "Basic" or the empty word). *)
Theorem authenticateToken_gate {A} (verify : string -> option Claims)
    (next : Claims -> Reply A) (scheme token : string) :
  lacks " " scheme = true -> lacks " " token = true ->
  authenticateToken verify None next = refused 401 "Access token required"
  /\ authenticateToken verify (Some token) next
     = refused 401 "Access token required"
  /\ authenticateToken verify (Some (scheme ++ " " ++ token)%string) next
     = match token with
       | EmptyString => refused 401 "Access token required"
       | String _ _ =>
           match verify token with
           | None => refused 403 "Invalid token"
           | Some user => next user
           end
       end.
Proof.
  intros Hs Ht. split; [reflexivity|]. split.
  - (* one word: [split(" ")] has no second element *)
    unfold authenticateToken. destruct token as [|c t]; [reflexivity|].
    now rewrite (split_single _ _ Ht).
  - (* scheme and token *)
    unfold authenticateToken.
    assert (Hsecond : second (split " " (scheme ++ " " ++ token)%string)
                      = Some token).
    { change (" " ++ token)%string with (String " " token).
      rewrite (split_cons _ _ _ Hs), (split_single _ _ Ht). reflexivity. }
    destruct (scheme ++ " " ++ token)%string as [|c h] eqn:E.
    + destruct scheme; discriminate.
    + rewrite Hsecond. destruct token; reflexivity.
Qed.

Lemma authenticateToken_gate_witness :
  authenticateToken (fun _ => Some {| userId := "u9" |}) None
    (fun user => json (userId user))
  = refused 401 "Access token required"
  /\ authenticateToken (fun _ => Some {| userId := "u9" |}) (Some "t0k3n")
       (fun user => json (userId user))
     = refused 401 "Access token required"
  /\ authenticateToken (fun _ => Some {| userId := "u9" |})
       (Some ("Basic" ++ " " ++ "t0k3n")%string)
       (fun user => json (userId user))
     = match "t0k3n" with
       | EmptyString => refused 401 "Access token required"
       | String _ _ =>
           match (fun _ : string => Some {| userId := "u9" |}) "t0k3n" with
           | None => refused 403 "Invalid token"
           | Some user => (fun user => json (userId user)) user
           end
       end.
Proof.
  apply (authenticateToken_gate (fun _ => Some {| userId := "u9" |})
           (fun user => json (userId user)) "Basic" "t0k3n");
    reflexivity.
Defined.





(** Without [Authorization] header both routes answer 401. *)
Lemma unauthenticated_refused (verify : string -> option Claims) (db : Db) :
  (forall id, get_user_by_id verify db None id
              = refused 401 "Access token required")
  /\ (forall skills, get_users_by_skills verify db None skills
                     = refused 401 "Access token required").
Proof. split; reflexivity. Qed.

Lemma deployed_user_run (verify : string -> option Claims) (db : Db)
    (activeProjects : outcome (list Project.doc))
    (project : ObjectId -> outcome Project.doc) (uid : ObjectId) (w : World) :
  generateMatchesForUser (deployed verify db activeProjects project) uid w
  = (Ok tt, gave_up "user" "Error generating matches for user:" w).
Proof.
  apply (generateMatchesForUser_fetch_failure _ _ _ RequestFailed).
  left. reflexivity.
Qed.

Lemma deployed_project_run (verify : string -> option Claims) (db : Db)
    (activeProjects : outcome (list Project.doc))
    (project : ObjectId -> outcome Project.doc) (pid : ObjectId) (w : World) :
  generateMatchesForProject (deployed verify db activeProjects project) pid w
  = (Ok tt, gave_up "project" "Error generating matches for project:" w).
Proof.
  unfold generateMatchesForProject, try_catch, bind, lift.
  cbn [getProject getUsersBySkills deployed].
  destruct (project pid) as [p|e]; [|reflexivity].
  destruct (Project.requiredSkills p) as [required|]; reflexivity.
Qed.

(** X26. Wired to the user service as it is written, the matching
    service never creates a match. Its requests for a user and for the
    users holding some skills are sent without [Authorization] header,
    and both routes of the user service sit behind [authenticateToken]:
    they answer 401, which rejects the request. So, whatever the
    token verification, the stored users and the project service are,
    every generation run, for a user or for a project, ends in its
    [catch] (one error logged, one error counted), and over any sequence
    of requests served with these collaborators the collection keeps
    exactly its records. *)
Theorem deployed_service_creates_nothing
    (verify : string -> option Claims) (db : Db)
    (activeProjects : outcome (list Project.doc))
    (project : ObjectId -> outcome Project.doc) :
  let env := deployed verify db activeProjects project in
  (forall id, getUser env id = Throw RequestFailed)
  /\ (forall requiredSkills,
        getUsersBySkills env requiredSkills = Throw RequestFailed)
  /\ (forall id w,
        generateMatchesForUser env id w
        = (Ok tt, gave_up "user" "Error generating matches for user:" w)
        /\ generateMatchesForProject env id w
           = (Ok tt,
              gave_up "project" "Error generating matches for project:" w))
  /\ (forall rs w,
        Forall (served_by env) rs ->
        map core (matches (run rs w)) = map core (matches w)).
Proof.
  intros env. split; [reflexivity|]. split; [reflexivity|].
  assert (Hruns : forall id w,
    generateMatchesForUser env id w
    = (Ok tt, gave_up "user" "Error generating matches for user:" w)
    /\ generateMatchesForProject env id w
       = (Ok tt, gave_up "project" "Error generating matches for project:" w)).
  { intros id w. split;
      [apply deployed_user_run | apply deployed_project_run]. }
  split; [exact Hruns|]. clearbody env.
  (* one request at a time *)
  assert (Hserve : forall r w,
    served_by env r -> map core (matches (serve r w)) = map core (matches w)).
  { intros [env' [msg|]|env' [msg|]|env' uid pid|id st|id r c h] w Hr;
      cbn [served_by] in Hr; subst; cbn [serve]; try reflexivity.
    - unfold consume_user_events, handleUserEvent, try_catch, bind, lift.
      destruct (content msg) as [eventData|e]; [|reflexivity].
      cbn [logger fst snd]. destruct (_ || _); [|reflexivity].
      rewrite (proj1 (Hruns _ _)). reflexivity.
    - unfold consume_project_events, handleProjectEvent, try_catch, bind,
        lift.
      destruct (content msg) as [eventData|e]; [|reflexivity].
      cbn [logger fst snd]. destruct (String.eqb _ _); [|reflexivity].
      rewrite (proj2 (Hruns _ _)). reflexivity.
    - unfold post_generate, try_catch, bind.
      destruct uid as [[|c u]|]; destruct pid as [[|c' p]|];
        try reflexivity;
        first [rewrite (proj1 (Hruns _ _)) | rewrite (proj2 (Hruns _ _))];
        reflexivity.
    - rewrite put_status_spec.
      destruct (match st with Some s => status_of_string s | None => None end)
        as [st'|]; [|reflexivity].
      destruct (Spec.findById id (matches w));
        cbn [snd matches with_matches];
        now apply update_first_map.
    - rewrite post_feedback_matches. cbn [matches with_matches].
      now apply update_first_map. }
  intros rs. induction rs as [|r rs IH]; intros w Hrs; [reflexivity|].
  inversion Hrs as [|? ? Hr Hrest]; subst. cbn [run fold_left].
  change (fold_left (fun w0 r0 => serve r0 w0) rs (serve r w))
    with (run rs (serve r w)).
  rewrite (IH _ Hrest). now apply Hserve.
Qed.

End UserServiceCalls.
